(** * Mobile bridge and touch gestures: a shallow embedding

    The development follows the two TypeScript sources of the repository:

    - [mobileBridge.ts]: environment detection ([isMobileApp], [getPlatform])
      and the [MobileBridge] class (transport selection in [postMessage],
      the subscriber set of [onMessage], inbound dispatch in
      [handleNativeMessage]);
    - [mobileTouch.ts]: the gesture recogniser [setupTouchGestures] with its
      three listeners [handleTouchStart], [handleTouchMove] and
      [handleTouchEnd], and the utilities around it ([isTouchDevice],
      [isMobileDevice], [getDeviceInfo], [openUrl], [copyToClipboard],
      [handleVirtualKeyboard]).

    Definitions come first, the theorems about them afterwards. *)

From Stdlib Require Import ZArith List String Ascii Bool Lia DecimalString.
Import ListNotations.

Local Open Scope Z_scope.

(* ================================================================== *)
(** * Part I: [mobileTouch.ts], [setupTouchGestures]                    *)
(* ================================================================== *)

Module MobileTouch.

(** One contact point of a touch event.  [clientX] and [clientY] are
    JavaScript numbers; they are modelled as integers, on which the
    subtractions, [Math.abs] and the comparisons of the source are exact. *)
Record Touch := { clientX : Z; clientY : Z }.

(** What the listeners read of a [TouchEvent]: [e.touches[0]] (start and
    move) and [e.changedTouches[0]] (end).  Every event of the surface
    carries at least one contact point. *)
Record TouchEvent := { touches0 : Touch; changedTouches0 : Touch }.

(** The [handlers] argument: which of the three optional callbacks is
    present. *)
Record Handlers := {
  onLongPress : bool;
  onDoubleTap : bool;
  onSwipe : bool
}.

Inductive Direction := Left | Right | Up | Down.

(** A callback invocation, as observed from outside the recogniser. *)
Inductive Call :=
| LongPress (e : TouchEvent) (x y : Z)
| DoubleTap (e : TouchEvent)
| Swipe (d : Direction).

Definition TOUCH_MOVE_THRESHOLD : Z := 10.
Definition LONG_PRESS_DURATION : Z := 500.
Definition DOUBLE_TAP_DURATION : Z := 300.
Definition minSwipeDistance : Z := 50.

(** The four [let] variables closed over by the listeners.  A timer handle
    returned by [setTimeout] is a positive integer, hence truthy;
    [None] is [null]. *)
Record Vars := {
  longPressTimer : option positive;
  touchStartX : Z;
  touchStartY : Z;
  lastTapTime : Z
}.

(** A timeout scheduled by [handleTouchStart]: its handle, the clock value
    at which it becomes due, and the event its callback captured. *)
Record Timer := { handle : positive; deadline : Z; captured : TouchEvent }.

(** A bound surface: the closure variables together with the host's table
    of scheduled timeouts and the next handle it will hand out. *)
Record Surface := {
  vars : Vars;
  timers : list Timer;
  fresh : positive
}.

Definition set_longPressTimer (o : option positive) (v : Vars) : Vars :=
  {| longPressTimer := o;
     touchStartX := touchStartX v;
     touchStartY := touchStartY v;
     lastTapTime := lastTapTime v |}.

Definition set_touchStart (x y : Z) (v : Vars) : Vars :=
  {| longPressTimer := longPressTimer v;
     touchStartX := x;
     touchStartY := y;
     lastTapTime := lastTapTime v |}.

Definition set_lastTapTime (t : Z) (v : Vars) : Vars :=
  {| longPressTimer := longPressTimer v;
     touchStartX := touchStartX v;
     touchStartY := touchStartY v;
     lastTapTime := t |}.

(** [setupTouchGestures] starts with [null, 0, 0, 0] and nothing
    scheduled. *)
Definition initial : Surface :=
  {| vars := {| longPressTimer := None; touchStartX := 0;
                touchStartY := 0; lastTapTime := 0 |};
     timers := [];
     fresh := 1%positive |}.

(** [clearTimeout(h)]: the timeout with that handle, if still scheduled,
    is dropped; otherwise nothing happens. *)
Definition clearTimeout (h : positive) (q : list Timer) : list Timer :=
  filter (fun t => negb (Pos.eqb (handle t) h)) q.

(** [handleTouchStart], run when the clock reads [now]. *)
Definition handleTouchStart (h : Handlers) (now : Z) (e : TouchEvent)
  (s : Surface) : Surface :=
  let v := set_touchStart (clientX (touches0 e)) (clientY (touches0 e)) (vars s) in
  if onLongPress h then
    {| vars := set_longPressTimer (Some (fresh s)) v;
       timers := timers s ++ [ {| handle := fresh s;
                                  deadline := now + LONG_PRESS_DURATION;
                                  captured := e |} ];
       fresh := Pos.succ (fresh s) |}
  else
    {| vars := v; timers := timers s; fresh := fresh s |}.

(** [handleTouchMove]. *)
Definition handleTouchMove (e : TouchEvent) (s : Surface) : Surface :=
  let deltaX := Z.abs (clientX (touches0 e) - touchStartX (vars s)) in
  let deltaY := Z.abs (clientY (touches0 e) - touchStartY (vars s)) in
  if (deltaX >? TOUCH_MOVE_THRESHOLD) || (deltaY >? TOUCH_MOVE_THRESHOLD) then
    match longPressTimer (vars s) with
    | Some t =>
        {| vars := set_longPressTimer None (vars s);
           timers := clearTimeout t (timers s);
           fresh := fresh s |}
    | None => s
    end
  else s.

(** The first statement of [handleTouchEnd]: cancel the long-press timer. *)
Definition cancelLongPress (s : Surface) : Surface :=
  match longPressTimer (vars s) with
  | Some t =>
      {| vars := set_longPressTimer None (vars s);
         timers := clearTimeout t (timers s);
         fresh := fresh s |}
  | None => s
  end.

Definition with_vars (v : Vars) (s : Surface) : Surface :=
  {| vars := v; timers := timers s; fresh := fresh s |}.

(** The tail of [handleTouchEnd], reached when no swipe was reported:
    double-tap detection, with [currentTime = Date.now()]. *)
Definition doubleTapDetection (h : Handlers) (currentTime : Z) (e : TouchEvent)
  (s : Surface) : Surface * list Call :=
  if onDoubleTap h then
    if currentTime - lastTapTime (vars s) <? DOUBLE_TAP_DURATION then
      (with_vars (set_lastTapTime 0 (vars s)) s, [DoubleTap e])
    else
      (with_vars (set_lastTapTime currentTime (vars s)) s, [])
  else (s, []).

(** [handleTouchEnd], run when [Date.now()] reads [now].  The result is the
    new surface and the callbacks invoked, in order. *)
Definition handleTouchEnd (h : Handlers) (now : Z) (e : TouchEvent)
  (s : Surface) : Surface * list Call :=
  let s := cancelLongPress s in
  let touchEndX := clientX (changedTouches0 e) in
  let touchEndY := clientY (changedTouches0 e) in
  let deltaX := touchEndX - touchStartX (vars s) in
  let deltaY := touchEndY - touchStartY (vars s) in
  if onSwipe h then
    let absX := Z.abs deltaX in
    let absY := Z.abs deltaY in
    if (absX >? minSwipeDistance) || (absY >? minSwipeDistance) then
      if absX >? absY then
        (s, [Swipe (if deltaX >? 0 then Right else Left)])
      else
        (s, [Swipe (if deltaY >? 0 then Down else Up)])
    else doubleTapDetection h now e s
  else doubleTapDetection h now e s.

(** The teardown returned by [setupTouchGestures]: the listeners are
    removed and a scheduled long-press is cleared ([longPressTimer] itself
    is left as it is). *)
Definition teardown (s : Surface) : Surface :=
  match longPressTimer (vars s) with
  | Some t => {| vars := vars s; timers := clearTimeout t (timers s); fresh := fresh s |}
  | None => s
  end.

(** ** The host's event loop

    Listeners and timeout callbacks run one at a time, each to completion.
    An event is delivered with the clock value at which its listener runs;
    the timeouts that are due by then have run before it.  One clock serves
    both [setTimeout] and [Date.now()]. *)

Definition due (now : Z) (t : Timer) : bool := deadline t <=? now.

(** The callback scheduled by [handleTouchStart]:
    [handlers.onLongPress?.(e, touchStartX, touchStartY)], reading the
    start coordinates when it runs. *)
Definition longPressCallback (h : Handlers) (v : Vars) (t : Timer) : list Call :=
  if onLongPress h then [LongPress (captured t) (touchStartX v) (touchStartY v)]
  else [].

Definition fire_due (h : Handlers) (now : Z) (s : Surface) : Surface * list Call :=
  ({| vars := vars s;
      timers := filter (fun t => negb (due now t)) (timers s);
      fresh := fresh s |},
   flat_map (longPressCallback h (vars s)) (filter (due now) (timers s))).

Inductive Kind := touchstart | touchmove | touchend.

(** An event of the stream: the clock value, the kind, the payload. *)
Record Input := { at_time : Z; kind : Kind; event : TouchEvent }.

Definition listener (h : Handlers) (i : Input) (s : Surface) : Surface * list Call :=
  match kind i with
  | touchstart => (handleTouchStart h (at_time i) (event i) s, [])
  | touchmove => (handleTouchMove (event i) s, [])
  | touchend => handleTouchEnd h (at_time i) (event i) s
  end.

Definition deliver (h : Handlers) (i : Input) (s : Surface) : Surface * list Call :=
  let (s1, fired) := fire_due h (at_time i) s in
  let (s2, called) := listener h i s1 in
  (s2, fired ++ called).

Fixpoint run (h : Handlers) (s : Surface) (inputs : list Input) : Surface * list Call :=
  match inputs with
  | [] => (s, [])
  | i :: rest =>
      let (s1, out1) := deliver h i s in
      let (s2, out2) := run h s1 rest in
      (s2, out1 ++ out2)
  end.

(** A contact sequence: one contact-start, the moves that follow it, the
    matching contact-end. *)
Definition contact (start : Input) (moves : list Input) (finish : Input) : list Input :=
  start :: moves ++ [finish].

Definition is_start (i : Input) : Prop := kind i = touchstart.
Definition is_move (i : Input) : Prop := kind i = touchmove.
Definition is_end (i : Input) : Prop := kind i = touchend.

Definition isLongPress (c : Call) : bool :=
  match c with LongPress _ _ _ => true | _ => false end.
Definition isDoubleTap (c : Call) : bool :=
  match c with DoubleTap _ => true | _ => false end.
Definition isSwipe (c : Call) : bool :=
  match c with Swipe _ => true | _ => false end.

(** Convenience constructors for concrete scenarios. *)
Definition at_point (x y : Z) : TouchEvent :=
  {| touches0 := {| clientX := x; clientY := y |};
     changedTouches0 := {| clientX := x; clientY := y |} |}.
Definition start_at (t x y : Z) : Input :=
  {| at_time := t; kind := touchstart; event := at_point x y |}.
Definition move_at (t x y : Z) : Input :=
  {| at_time := t; kind := touchmove; event := at_point x y |}.
Definition end_at (t x y : Z) : Input :=
  {| at_time := t; kind := touchend; event := at_point x y |}.

Definition all_handlers : Handlers :=
  {| onLongPress := true; onDoubleTap := true; onSwipe := true |}.

(** ** Vocabulary of the specification *)

(** The callbacks invoked over one contact sequence delivered to [s]. *)
Definition outcomes (h : Handlers) (s : Surface) (start : Input)
  (moves : list Input) (finish : Input) : list Call :=
  snd (run h s (contact start moves finish)).

(** End-start displacement, as [handleTouchEnd] computes it. *)
Definition endDeltaX (e : TouchEvent) (s : Surface) : Z :=
  clientX (changedTouches0 e) - touchStartX (vars s).
Definition endDeltaY (e : TouchEvent) (s : Surface) : Z :=
  clientY (changedTouches0 e) - touchStartY (vars s).

(** A move whose displacement from the point [(x, y)] exceeds the movement
    threshold in either axis. *)
Definition movedBeyondThreshold (x y : Z) (i : Input) : Prop :=
  Z.abs (clientX (touches0 (event i)) - x) > TOUCH_MOVE_THRESHOLD \/
  Z.abs (clientY (touches0 (event i)) - y) > TOUCH_MOVE_THRESHOLD.

(** Every scheduled timeout is the one [longPressTimer] points at. *)
Definition owned (s : Surface) : Prop :=
  Forall (fun t => longPressTimer (vars s) = Some (handle t)) (timers s).

(** A surface early in a contact sequence: every scheduled timeout is the one
    [longPressTimer] points at, it is due at [T], and the start
    coordinates are [(x, y)]. *)
Definition young (T x y : Z) (s : Surface) : Prop :=
  Forall (fun t => longPressTimer (vars s) = Some (handle t) /\ deadline t = T)
         (timers s) /\
  touchStartX (vars s) = x /\ touchStartY (vars s) = y.

(** The reading of the gesture invariant under test: a contact sequence is
    attributed at most one callback. *)
Definition singleOutcome (h : Handlers) (s : Surface) (start : Input)
  (moves : list Input) (finish : Input) : Prop :=
  (List.length (outcomes h s start moves finish) <= 1)%nat.

End MobileTouch.

(* ================================================================== *)
(** * Part II: [mobileBridge.ts]                                        *)
(* ================================================================== *)

Module MobileBridge.

(** ** JavaScript values the bridge looks at

    Payloads of inbound events, the [data] of outbound messages and the
    capability objects hanging off [window] are plain JavaScript values.
    [JsFun] is a host function, named so that calls can be told apart. *)
#[local] Set Warnings "-register-all".
Inductive JsValue :=
| JsUndefined
| JsNull
| JsBool (b : bool)
| JsNum (n : Z)
| JsStr (s : string)
| JsFun (name : string)
| JsObj (fields : list (string * JsValue)).
#[local] Set Warnings "register-all".

(** [ToBoolean]: what [if (v)], [!v] and [&&] test. *)
Definition truthy (v : JsValue) : bool :=
  match v with
  | JsUndefined | JsNull => false
  | JsBool b => b
  | JsNum n => negb (n =? 0)
  | JsStr s => negb (String.eqb s EmptyString)
  | JsFun _ | JsObj _ => true
  end.

Inductive JsError :=
| ReferenceError (name : string)
| TypeError (what : string)
| Thrown (v : JsValue).

(** How a statement or call ends. *)
Inductive Completion (A : Type) :=
| Normal (a : A)
| Throw (e : JsError).
Arguments Normal {A} a.
Arguments Throw {A} e.

Fixpoint lookup (k : string) (fields : list (string * JsValue)) : JsValue :=
  match fields with
  | [] => JsUndefined
  | (k', v) :: rest => if String.eqb k k' then v else lookup k rest
  end.

(** Property read [v.k]: a [TypeError] on [null] and [undefined]; own
    properties of an object; [undefined] for any other property asked of
    a primitive or of a function here. *)
Definition getProp (v : JsValue) (k : string) : Completion JsValue :=
  match v with
  | JsUndefined | JsNull => Throw (TypeError k)
  | JsObj fields => Normal (lookup k fields)
  | _ => Normal JsUndefined
  end.

(** ** Messages *)

Inductive BridgeMessageType :=
| SAVE_AUTH | LOGOUT | OPEN_EXTERNAL | COPY_TEXT
| TOGGLE_FULLSCREEN | SHOW_TOAST | GET_DEVICE_INFO | TOKEN_EXPIRED.

Definition BridgeMessageType_name (t : BridgeMessageType) : string :=
  match t with
  | SAVE_AUTH => "SAVE_AUTH"
  | LOGOUT => "LOGOUT"
  | OPEN_EXTERNAL => "OPEN_EXTERNAL"
  | COPY_TEXT => "COPY_TEXT"
  | TOGGLE_FULLSCREEN => "TOGGLE_FULLSCREEN"
  | SHOW_TOAST => "SHOW_TOAST"
  | GET_DEVICE_INFO => "GET_DEVICE_INFO"
  | TOKEN_EXPIRED => "TOKEN_EXPIRED"
  end.

(** [interface BridgeMessage { type; data? }]. *)
Record BridgeMessage := {
  msg_type : BridgeMessageType;
  msg_data : option JsValue
}.

(** The object a [BridgeMessage] is at run time. *)
Definition BridgeMessage_value (m : BridgeMessage) : JsValue :=
  JsObj (("type", JsStr (BridgeMessageType_name (msg_type m)))
         :: match msg_data m with
            | Some d => [("data", d)]
            | None => []
            end)%string.

(** [type NativeMessageType], the four strings of the declaration.  The
    type exists at compile time only. *)
Definition NativeMessageType : list string :=
  ["TOKEN"; "DEVICE_INFO"; "LOGOUT_COMPLETE"; "AUTH_SAVED"]%string.

Definition isNativeMessageType (v : JsValue) : bool :=
  match v with
  | JsStr s => existsb (String.eqb s) NativeMessageType
  | _ => false
  end.

(** A subscriber is a function reference; references are compared by
    identity. *)
Definition MessageHandler := nat.

(** ** Observable effects *)

Inductive Effect :=
| ConsoleLog (text : string) (arg : JsValue)
| ConsoleWarn (text : string) (arg : JsValue)
| ConsoleError (text : string) (error : JsError)
| AddEventListener (target type : string)
| UniPostMessage (message : BridgeMessage)
| ParentPostMessage (message : BridgeMessage) (targetOrigin : string)
| WebViewPostMessage (payload : string)
| HandlerCall (handler : MessageHandler) (message : JsValue).

(** A computation: the effects it performed, in order, and how it ended. *)
Definition Js (A : Type) : Type := list Effect * Completion A.

Definition ret {A} (a : A) : Js A := ([], Normal a).
Definition throw {A} (e : JsError) : Js A := ([], Throw e).
Definition emit (f : Effect) : Js unit := ([f], Normal tt).
Definition lift {A} (c : Completion A) : Js A := ([], c).

Definition bind {A B} (m : Js A) (k : A -> Js B) : Js B :=
  match m with
  | (log, Normal a) => let (log', r) := k a in (log ++ log', r)
  | (log, Throw e) => (log, Throw e)
  end.

(** [try { body } catch (error) { handler }]. *)
Definition try_catch {A} (body : Js A) (handler : JsError -> Js A) : Js A :=
  match body with
  | (log, Normal a) => (log, Normal a)
  | (log, Throw e) => let (log', r) := handler e in (log ++ log', r)
  end.

Notation "x <- m ;; k" := (bind m (fun x => k))
  (at level 61, m at next level, right associativity).
Notation "m ;;; k" := (bind m (fun _ => k))
  (at level 61, right associativity).

(** [xs.forEach(f)]. *)
Fixpoint forEach {A} (xs : list A) (f : A -> Js unit) : Js unit :=
  match xs with
  | [] => ret tt
  | x :: rest => f x ;;; forEach rest f
  end.

Definition effects {A} (m : Js A) : list Effect := fst m.
Definition outcome {A} (m : Js A) : Completion A := snd m.

(** Calling [f(...)]: the host function performs [eff]; anything that is
    not a function cannot be called. *)
Definition callHost (f : JsValue) (eff : Effect) : Js unit :=
  match f with
  | JsFun _ => emit eff
  | _ => throw (TypeError "not a function")
  end.

(** ** Built-ins of the platform used by the source *)

(** [String.prototype.toLowerCase], on the ASCII letters. *)
Definition lower (c : ascii) : ascii :=
  let n := nat_of_ascii c in
  if ((65 <=? n) && (n <=? 90))%nat then ascii_of_nat (n + 32) else c.

Fixpoint toLowerCase (s : string) : string :=
  match s with
  | EmptyString => EmptyString
  | String c rest => String (lower c) (toLowerCase rest)
  end.

(** [s.includes(sub)]. *)
Fixpoint includes (s sub : string) : bool :=
  String.prefix sub s ||
  match s with
  | EmptyString => false
  | String _ rest => includes rest sub
  end.

(** [new URLSearchParams(window.location.search)] is kept parsed, as its
    list of name/value pairs; [get] answers the first value of a name, or
    [null]. *)
Fixpoint URLSearchParams_get (name : string) (params : list (string * string))
  : option string :=
  match params with
  | [] => None
  | (k, v) :: rest => if String.eqb k name then Some v else URLSearchParams_get name rest
  end.

(** [JSON.stringify] on the values above.  Properties holding [undefined]
    or a function are left out; the answer for such a value on its own is
    [undefined] ([None]). *)
Definition hexDigit (n : nat) : ascii :=
  ascii_of_nat (if (n <? 10)%nat then 48 + n else 87 + n).

Definition doubleQuote : ascii := ascii_of_nat 34.
Definition backslash : ascii := ascii_of_nat 92.

Definition escapeChar (c : ascii) : string :=
  let n := nat_of_ascii c in
  if (n =? 34)%nat then String backslash (String doubleQuote EmptyString)
  else if (n =? 92)%nat then String backslash (String backslash EmptyString)
  else if (n =? 8)%nat then String backslash "b"
  else if (n =? 9)%nat then String backslash "t"
  else if (n =? 10)%nat then String backslash "n"
  else if (n =? 12)%nat then String backslash "f"
  else if (n =? 13)%nat then String backslash "r"
  else if (n <? 32)%nat then
    String backslash
      ("u00" ++ String (hexDigit (n / 16)) (String (hexDigit (n mod 16)) EmptyString))%string
  else String c EmptyString.

Fixpoint escape (s : string) : string :=
  match s with
  | EmptyString => EmptyString
  | String c rest => (escapeChar c ++ escape rest)%string
  end.

Definition quote (s : string) : string :=
  (String doubleQuote (escape s) ++ String doubleQuote EmptyString)%string.

Definition decimal (n : Z) : string := NilZero.string_of_int (Z.to_int n).

Fixpoint stringify (v : JsValue) : option string :=
  match v with
  | JsUndefined | JsFun _ => None
  | JsNull => Some "null"%string
  | JsBool b => Some (if b then "true" else "false")%string
  | JsNum n => Some (decimal n)
  | JsStr s => Some (quote s)
  | JsObj fields =>
      let members :=
        (fix members (fs : list (string * JsValue)) : list string :=
           match fs with
           | [] => []
           | (k, x) :: rest =>
               match stringify x with
               | Some t => (quote k ++ ":" ++ t)%string :: members rest
               | None => members rest
               end
           end) fields in
      Some ("{" ++ String.concat "," members ++ "}")%string
  end.

(** [JSON.stringify(message)] for a message, which is an object. *)
Definition JSON_stringify (message : BridgeMessage) : string :=
  match stringify (BridgeMessage_value message) with
  | Some s => s
  | None => EmptyString
  end.

(** ** The ambient environment *)

(** What the source reads of [window]. *)
Record Window := {
  MOBILE_APP : JsValue;                       (* window.__MOBILE_APP__ *)
  location_search : list (string * string);   (* window.location.search, parsed *)
  uni : JsValue;                              (* window.uni *)
  parent_is_window : bool;                    (* window.parent === window *)
  ReactNativeWebView : JsValue                (* window.ReactNativeWebView *)
}.

Record Navigator := { userAgent : string }.

(** The global bindings; [None] is a binding that does not exist, so that
    reading it raises a [ReferenceError] unless it is under [typeof].  The
    global [document] accompanies [window]. *)
Record Globals := {
  window : option Window;
  navigator : option Navigator
}.

Definition read_window (g : Globals) : Js Window :=
  match window g with
  | Some w => ret w
  | None => throw (ReferenceError "window")
  end.

Definition read_navigator (g : Globals) : Js Navigator :=
  match navigator g with
  | Some n => ret n
  | None => throw (ReferenceError "navigator")
  end.

(** [typeof window !== 'undefined']. *)
Definition window_defined (g : Globals) : bool :=
  match window g with Some _ => true | None => false end.

(** [typeof v !== 'undefined']. *)
Definition defined (v : JsValue) : bool :=
  match v with JsUndefined => false | _ => true end.

(** ** [isMobileApp] and [getPlatform] *)

Definition isMobileApp (g : Globals) : Js bool :=
  (* typeof window !== 'undefined' && window.__MOBILE_APP__ *)
  if match window g with
     | Some w => truthy (MOBILE_APP w)
     | None => false
     end
  then ret true
  else
    w <- read_window g ;;
    let urlParams := location_search w in
    if match URLSearchParams_get "mobile" urlParams with
       | Some v => String.eqb v "true"
       | None => false
       end
    then ret true
    else
      (* typeof window.uni !== 'undefined' && window.uni.postMessage *)
      bridge <- (if defined (uni w)
                 then p <- lift (getProp (uni w) "postMessage") ;; ret (truthy p)
                 else ret false) ;;
      if bridge then ret true
      else
        n <- read_navigator g ;;
        let userAgent := toLowerCase (userAgent n) in
        ret (includes userAgent "claudecodeui" || includes userAgent "uni-app").

Inductive Platform := ios | android | web.

Definition getPlatform (g : Globals) : Js Platform :=
  n <- read_navigator g ;;
  let userAgent := toLowerCase (userAgent n) in
  if includes userAgent "iphone" || includes userAgent "ipad" then ret ios
  else if includes userAgent "android" then ret android
  else ret web.

(** ** [class MobileBridge] *)

Record MobileBridge := {
  isMobile : bool;
  messageHandlers : list MessageHandler;   (* a Set, in insertion order *)
  initialized : bool
}.

Definition set_isMobile (v : bool) (this : MobileBridge) : MobileBridge :=
  {| isMobile := v;
     messageHandlers := messageHandlers this;
     initialized := initialized this |}.

Definition set_messageHandlers (hs : list MessageHandler) (this : MobileBridge)
  : MobileBridge :=
  {| isMobile := isMobile this;
     messageHandlers := hs;
     initialized := initialized this |}.

Definition set_initialized (v : bool) (this : MobileBridge) : MobileBridge :=
  {| isMobile := isMobile this;
     messageHandlers := messageHandlers this;
     initialized := v |}.

(** [Set.prototype.add] and [Set.prototype.delete] on function
    references. *)
Definition Set_add (h : MessageHandler) (s : list MessageHandler) : list MessageHandler :=
  if existsb (Nat.eqb h) s then s else s ++ [h].

Definition Set_delete (h : MessageHandler) (s : list MessageHandler) : list MessageHandler :=
  filter (fun x => negb (Nat.eqb h x)) s.

(** [private init()]. *)
Definition init (g : Globals) (this : MobileBridge) : Js MobileBridge :=
  if initialized this then ret this
  else
    _ <- read_window g ;;
    emit (AddEventListener "window" "message") ;;;
    emit (AddEventListener "document" "UniAppBridgeReady") ;;;
    ret (set_initialized true this).

(** [constructor()], from the field initialisers. *)
Definition constructor (g : Globals) : Js MobileBridge :=
  let this := {| isMobile := false; messageHandlers := []; initialized := false |} in
  if window_defined g then
    m <- isMobileApp g ;;
    init g (set_isMobile m this)
  else ret this.

(** [onMessage(handler)]: the updated bridge and the unsubscribe closure,
    which acts on the bridge as it is when called. *)
Definition onMessage (this : MobileBridge) (handler : MessageHandler)
  : MobileBridge * (MobileBridge -> MobileBridge) :=
  (set_messageHandlers (Set_add handler (messageHandlers this)) this,
   fun this' => set_messageHandlers (Set_delete handler (messageHandlers this')) this').

(** [postMessage(message)]. *)
Definition postMessage (g : Globals) (this : MobileBridge) (message : BridgeMessage)
  : Js unit :=
  let type := JsStr (BridgeMessageType_name (msg_type message)) in
  if negb (isMobile this) then
    emit (ConsoleLog "[MobileBridge] Not in mobile app, skipping message:" type)
  else
    emit (ConsoleLog "[MobileBridge] Sending message to native:" type) ;;;
    w <- read_window g ;;
    (* window.uni && window.uni.postMessage *)
    direct <- (if truthy (uni w)
               then p <- lift (getProp (uni w) "postMessage") ;; ret (truthy p)
               else ret false) ;;
    if direct then
      f <- lift (getProp (uni w) "postMessage") ;;
      callHost f (UniPostMessage message)
    else if negb (parent_is_window w) then
      emit (ParentPostMessage message "*")
    else if truthy (ReactNativeWebView w) then
      f <- lift (getProp (ReactNativeWebView w) "postMessage") ;;
      callHost f (WebViewPostMessage (JSON_stringify message))
    else
      emit (ConsoleWarn "[MobileBridge] No bridge available for message:" type).

(** The typed senders. *)
Definition saveAuth (g : Globals) (this : MobileBridge) (token : string)
  (user_id user_username : string) (expiresIn : option Z) : Js unit :=
  postMessage g this
    {| msg_type := SAVE_AUTH;
       msg_data := Some (JsObj [("token", JsStr token);
                                ("user", JsObj [("id", JsStr user_id);
                                                ("username", JsStr user_username)]);
                                ("expiresIn", match expiresIn with
                                              | Some n => JsNum n
                                              | None => JsUndefined
                                              end)])%string |}.

Definition logout (g : Globals) (this : MobileBridge) : Js unit :=
  postMessage g this {| msg_type := LOGOUT; msg_data := None |}.

Definition openExternal (g : Globals) (this : MobileBridge) (url : string) : Js unit :=
  postMessage g this
    {| msg_type := OPEN_EXTERNAL; msg_data := Some (JsObj [("url", JsStr url)])%string |}.

Definition copyText (g : Globals) (this : MobileBridge) (text : string) : Js unit :=
  postMessage g this
    {| msg_type := COPY_TEXT; msg_data := Some (JsObj [("text", JsStr text)])%string |}.

Definition toggleFullscreen (g : Globals) (this : MobileBridge) : Js unit :=
  postMessage g this {| msg_type := TOGGLE_FULLSCREEN; msg_data := None |}.

Definition showToast (g : Globals) (this : MobileBridge) (message : string)
  (duration : option Z) : Js unit :=
  postMessage g this
    {| msg_type := SHOW_TOAST;
       msg_data := Some (JsObj [("message", JsStr message);
                                ("duration", JsNum (match duration with
                                                    | Some d => d
                                                    | None => 2000
                                                    end))])%string |}.

Definition tokenExpired (g : Globals) (this : MobileBridge) : Js unit :=
  postMessage g this {| msg_type := TOKEN_EXPIRED; msg_data := None |}.

Definition requestDeviceInfo (g : Globals) (this : MobileBridge) : Js unit :=
  postMessage g this {| msg_type := GET_DEVICE_INFO; msg_data := None |}.

(** ** Inbound dispatch *)

Section Dispatch.

(** What a subscriber does when called with a message: return, or raise.
    A subscriber is taken as a black box that leaves the subscriber set
    alone while the dispatch loop is running. *)
Variable behaviour : MessageHandler -> JsValue -> Completion unit.

Definition callHandler (handler : MessageHandler) (message : JsValue) : Js unit :=
  emit (HandlerCall handler message) ;;; lift (behaviour handler message).

(** [private handleNativeMessage(event)], on [event.data]. *)
Definition handleNativeMessage (this : MobileBridge) (event_data : JsValue) : Js unit :=
  let message := event_data in
  (* !message || !message.type *)
  invalid <- (if negb (truthy message) then ret true
              else t <- lift (getProp message "type") ;; ret (negb (truthy t))) ;;
  if (invalid : bool) then ret tt
  else
    t <- lift (getProp message "type") ;;
    emit (ConsoleLog "[MobileBridge] Received native message:" t) ;;;
    forEach (messageHandlers this) (fun handler =>
      try_catch (callHandler handler message)
                (fun error => emit (ConsoleError "[MobileBridge] Handler error:" error))).

End Dispatch.

(** The calls of subscribers recorded in a log. *)
Definition handlerCalls (log : list Effect) : list (MessageHandler * JsValue) :=
  flat_map (fun f => match f with
                     | HandlerCall h m => [(h, m)]
                     | _ => []
                     end) log.

(** The deliveries to a transport recorded in a log. *)
Definition isTransport (f : Effect) : bool :=
  match f with
  | UniPostMessage _ | ParentPostMessage _ _ | WebViewPostMessage _ => true
  | _ => false
  end.

Definition transportCalls (log : list Effect) : list Effect := filter isTransport log.

(** How often [h] was called in a log. *)
Definition timesCalled (h : MessageHandler) (log : list Effect) : nat :=
  List.length (filter (fun c => Nat.eqb (fst c) h) (handlerCalls log)).

(** ** Vocabulary of the specification *)

(** The [type] of an inbound payload, [undefined] where it has none. *)
Definition payloadType (data : JsValue) : JsValue :=
  match getProp data "type" with
  | Normal t => t
  | Throw _ => JsUndefined
  end.

(** The payloads that pass the guard of [handleNativeMessage]: truthy, with
    a truthy [type]. *)
Definition passesGuard (data : JsValue) : bool :=
  truthy data && truthy (payloadType data).

(** A payload whose [type] is not one of the four inbound kinds. *)
Definition outsideEnumeration (data : JsValue) : Prop :=
  isNativeMessageType (payloadType data) = false.

(** Dispatch that did nothing observable: no subscriber called, nothing
    logged, no error. *)
Definition discardedSilently (run : Js unit) : Prop := run = ([], Normal tt).

(** A capability object offering a [postMessage] function. *)
Definition offersPostMessage (v : JsValue) : bool :=
  match v with
  | JsObj fields =>
      match lookup "postMessage" fields with
      | JsFun _ => true
      | _ => false
      end
  | _ => false
  end.

(** No direct send on offer: [window.uni] is falsy, or it carries no
    [postMessage]. *)
Definition lacksPostMessage (v : JsValue) : bool :=
  negb (truthy v) ||
  match getProp v "postMessage" with
  | Normal p => negb (truthy p)
  | Throw _ => true
  end.

(** Environments and bridges for concrete scenarios. *)
Definition sendObject (name : string) : JsValue :=
  JsObj [("postMessage"%string, JsFun name)].

Definition window_with (uni' : JsValue) (top : bool) (webview : JsValue) : Window :=
  {| MOBILE_APP := JsBool true;
     location_search := [];
     uni := uni';
     parent_is_window := top;
     ReactNativeWebView := webview |}.

Definition browser (w : Window) : Globals :=
  {| window := Some w; navigator := Some {| userAgent := "Mozilla/5.0" |} |}.

Definition plain_bridge (mobile : bool) : MobileBridge :=
  {| isMobile := mobile; messageHandlers := []; initialized := true |}.

(** The loop body of [handleNativeMessage]. *)
Definition notify (behaviour : MessageHandler -> JsValue -> Completion unit)
  (message : JsValue) (handler : MessageHandler) : Js unit :=
  try_catch (callHandler behaviour handler message)
            (fun error => emit (ConsoleError "[MobileBridge] Handler error:" error)).

(** A subscriber set in which the handlers of [bad] raise and the others
    return. *)
Definition raising (bad : list MessageHandler) : MessageHandler -> JsValue -> Completion unit :=
  fun h _ => if existsb (Nat.eqb h) bad then Throw (Thrown (JsStr "boom")) else Normal tt.

Definition inbound (type : string) : JsValue := JsObj [("type"%string, JsStr type)].

Definition bridge_with (handlers : list MessageHandler) : MobileBridge :=
  {| isMobile := true; messageHandlers := handlers; initialized := true |}.

(** No windowing environment: neither [window] nor [navigator] is bound. *)
Definition headless : Globals := {| window := None; navigator := None |}.

End MobileBridge.

(* ================================================================== *)
(** * Further vocabulary for the bridge                                 *)
(* ================================================================== *)

Module BridgeVocabulary.
Import MobileBridge.

(** The four signals [isMobileApp] looks for, one by one. *)
Definition flagSet (w : Window) : bool := truthy (MOBILE_APP w).

Definition mobileParam (w : Window) : bool :=
  match URLSearchParams_get "mobile" (location_search w) with
  | Some v => String.eqb v "true"
  | None => false
  end.

Definition bridgeObject (w : Window) : bool :=
  match uni w with
  | JsObj fields => truthy (lookup "postMessage" fields)
  | _ => false
  end.

Definition shellMarker (n : Navigator) : bool :=
  includes (toLowerCase (userAgent n)) "claudecodeui"
  || includes (toLowerCase (userAgent n)) "uni-app".

Definition anySignal (w : Window) (n : Navigator) : bool :=
  flagSet w || mobileParam w || bridgeObject w || shellMarker n.

(** A capability slot that cannot make [postMessage] raise: nothing
    usable in it, or an object with a [postMessage] function. *)
Definition soundDirect (v : JsValue) : bool :=
  lacksPostMessage v || offersPostMessage v.

Definition soundWebView (v : JsValue) : bool :=
  negb (truthy v) || offersPostMessage v.

(** The error lines of a log. *)
Definition consoleErrors (log : list Effect) : list JsError :=
  flat_map (fun f => match f with
                     | ConsoleError _ e => [e]
                     | _ => []
                     end) log.

(** A call of one of the eight typed senders, with its arguments. *)
Inductive SenderCall :=
| CallSaveAuth (token user_id user_username : string) (expiresIn : option Z)
| CallLogout
| CallOpenExternal (url : string)
| CallCopyText (text : string)
| CallToggleFullscreen
| CallShowToast (message : string) (duration : option Z)
| CallTokenExpired
| CallRequestDeviceInfo.

Definition invoke (g : Globals) (this : MobileBridge) (c : SenderCall) : Js unit :=
  match c with
  | CallSaveAuth token id username expiresIn => saveAuth g this token id username expiresIn
  | CallLogout => logout g this
  | CallOpenExternal url => openExternal g this url
  | CallCopyText text => copyText g this text
  | CallToggleFullscreen => toggleFullscreen g this
  | CallShowToast message duration => showToast g this message duration
  | CallTokenExpired => tokenExpired g this
  | CallRequestDeviceInfo => requestDeviceInfo g this
  end.

(** The kind each sender is named after. *)
Definition kindOf (c : SenderCall) : BridgeMessageType :=
  match c with
  | CallSaveAuth _ _ _ _ => SAVE_AUTH
  | CallLogout => LOGOUT
  | CallOpenExternal _ => OPEN_EXTERNAL
  | CallCopyText _ => COPY_TEXT
  | CallToggleFullscreen => TOGGLE_FULLSCREEN
  | CallShowToast _ _ => SHOW_TOAST
  | CallTokenExpired => TOKEN_EXPIRED
  | CallRequestDeviceInfo => GET_DEVICE_INFO
  end.

(** The messages a log shows as handed to the direct send. *)
Definition directSends (log : list Effect) : list BridgeMessage :=
  flat_map (fun f => match f with
                     | UniPostMessage m => [m]
                     | _ => []
                     end) log.

(** User agents for scenarios. *)
Definition agent (ua : string) : Navigator := {| userAgent := ua |}.

End BridgeVocabulary.

(* ================================================================== *)
(** * [mobileBridge.ts]: dispatch over the live subscriber set          *)
(* ================================================================== *)

(** [handleNativeMessage] walks [this.messageHandlers] with
    [Set.prototype.forEach], which iterates the set itself and not a copy
    of it.  A subscriber is a function of the caller; while it runs it may
    call [onMessage] or an unsubscribe closure that [onMessage] returned,
    and the walk sees the change: in the list of entries behind a [Set],
    [delete] empties the entry of the value and leaves the others in
    place, [add] appends an entry unless the value is already held, and
    [forEach] visits the entries by index, skipping the empty ones and
    reading the length again after every call.  So a handler unsubscribed
    before the walk reaches it is not called, and one subscribed during
    the walk is called in the same dispatch.

    This part embeds the dispatch with such subscribers.  The embedding of
    Part II is its restriction to subscribers that leave the set alone. *)

Module LiveDispatch.
Import MobileBridge.

(** What a subscriber can do to the subscriber set, a private field: *)
Inductive SetAction :=
| Subscribe (handler : MessageHandler)     (* [onMessage(handler)] *)
| Unsubscribe (handler : MessageHandler).  (* the closure [onMessage(handler)] returned *)

(** One call of a subscriber: the changes it makes to the set, in order,
    and how the call ends. *)
Record Reaction := {
  actions : list SetAction;
  completion : Completion unit
}.

(** The subscribers.  A handler is a closure with a state of its own, so
    what it does may differ from call to call: the reaction is a function
    of the number of subscriber calls made before in the dispatch, of the
    handler called, and of the message. *)
Definition Subscriber : Type := nat -> MessageHandler -> JsValue -> Reaction.

(** The entries behind a [Set]: a value, or the mark [delete] leaves. *)
Definition SetData : Type := list (option MessageHandler).

Definition holds (h : MessageHandler) (entry : option MessageHandler) : bool :=
  match entry with
  | Some x => Nat.eqb h x
  | None => false
  end.

(** [Set.prototype.add] and [Set.prototype.delete] on the entries. *)
Definition SetData_add (h : MessageHandler) (d : SetData) : SetData :=
  if existsb (holds h) d then d else d ++ [Some h].

Definition SetData_delete (h : MessageHandler) (d : SetData) : SetData :=
  map (fun entry => if holds h entry then None else entry) d.

Definition act (a : SetAction) (d : SetData) : SetData :=
  match a with
  | Subscribe h => SetData_add h d
  | Unsubscribe h => SetData_delete h d
  end.

Definition actAll (acts : list SetAction) (d : SetData) : SetData :=
  fold_left (fun d a => act a d) acts d.

(** The values of a set, in insertion order, and the entries of a set
    that holds [hs]. *)
Definition values (d : SetData) : list MessageHandler :=
  flat_map (fun entry => match entry with
                         | Some h => [h]
                         | None => []
                         end) d.

Definition entries (hs : list MessageHandler) : SetData := map Some hs.

(** A walk over the set: what it did, the entries it leaves, and whether
    it came to the end of the entries. *)
Record Walk := {
  walk_trace : Js unit;
  walk_data : SetData;
  walk_ended : bool
}.

(** [this.messageHandlers.forEach(handler => { try { handler(message) }
    catch (error) { console.error(...) } })], from entry [index] on, [count]
    subscriber calls having been made.  A walk need not end (a subscriber
    may unsubscribe and subscribe itself again at every call); [fuel] bounds
    the number of entries visited. *)
Fixpoint forEach (subscriber : Subscriber) (message : JsValue)
  (fuel index count : nat) (d : SetData) : Walk :=
  match nth_error d index with
  | None => {| walk_trace := ret tt; walk_data := d; walk_ended := true |}
  | Some entry =>
      match fuel with
      | O => {| walk_trace := ret tt; walk_data := d; walk_ended := false |}
      | S fuel =>
          match entry with
          | None => forEach subscriber message fuel (S index) count d
          | Some handler =>
              let reaction := subscriber count handler message in
              let d := actAll (actions reaction) d in
              match notify (fun _ _ => completion reaction) message handler with
              | (log, Normal _) =>
                  let rest := forEach subscriber message fuel (S index) (S count) d in
                  {| walk_trace := (log ++ effects (walk_trace rest),
                                    outcome (walk_trace rest));
                     walk_data := walk_data rest;
                     walk_ended := walk_ended rest |}
              | (log, Throw error) =>
                  {| walk_trace := (log, Throw error);
                     walk_data := d;
                     walk_ended := true |}
              end
          end
      end
  end.

(** A dispatch: what it did, the bridge it leaves, and whether the walk
    over the subscribers came to its end. *)
Record Dispatched := {
  trace : Js unit;
  bridge : MobileBridge;
  finished : bool
}.

(** [private handleNativeMessage(event)], on [event.data]. *)
Definition handleNativeMessage (subscriber : Subscriber) (fuel : nat)
  (this : MobileBridge) (event_data : JsValue) : Dispatched :=
  let message := event_data in
  let returned (r : Js unit) := {| trace := r; bridge := this; finished := true |} in
  (* !message || !message.type *)
  match (if negb (truthy message) then ret true
         else t <- lift (getProp message "type") ;; ret (negb (truthy t))) with
  | (log, Throw error) => returned (log, Throw error)
  | (log, Normal true) => returned (log, Normal tt)
  | (log, Normal false) =>
      match getProp message "type" with
      | Throw error => returned (log, Throw error)
      | Normal t =>
          let walk := forEach subscriber message fuel 0 0
                              (entries (messageHandlers this)) in
          {| trace := (log ++ ConsoleLog "[MobileBridge] Received native message:" t
                            :: effects (walk_trace walk),
                       outcome (walk_trace walk));
             bridge := set_messageHandlers (values (walk_data walk)) this;
             finished := walk_ended walk |}
      end
  end.

(** ** Vocabulary *)

(** The line the loop body writes for a call that ended by [c]. *)
Definition errorLine (c : Completion unit) : list Effect :=
  match c with
  | Normal _ => []
  | Throw error => [ConsoleError "[MobileBridge] Handler error:" error]
  end.


(** No subscriber unsubscribes [h], or subscribes [h], for a message. *)
Definition neverUnsubscribes (subscriber : Subscriber) (message : JsValue)
  (h : MessageHandler) : Prop :=
  forall n h', ~ In (Unsubscribe h) (actions (subscriber n h' message)).



(** Subscribers that leave the set alone and return or raise by
    [behaviour], whatever was called before. *)
Definition steady (behaviour : MessageHandler -> JsValue -> Completion unit)
  : Subscriber :=
  fun _ h message => {| actions := []; completion := behaviour h message |}.

(** What the calls [calls], numbered from [n], raised. *)
Fixpoint raisedDuring (subscriber : Subscriber) (n : nat)
  (calls : list (MessageHandler * JsValue)) : list JsError :=
  match calls with
  | [] => []
  | (h, message) :: rest =>
      match completion (subscriber n h message) with
      | Throw error => [error]
      | Normal _ => []
      end ++ raisedDuring subscriber (S n) rest
  end.

(** Subscribers that act on the set by [script], a table from handlers to
    actions, at every call; those of [bad] raise afterwards. *)
Definition scripted (script : list (MessageHandler * list SetAction))
  (bad : list MessageHandler) : Subscriber :=
  fun _ h message =>
    {| actions := match find (fun entry => Nat.eqb h (fst entry)) script with
                  | Some entry => snd entry
                  | None => []
                  end;
       completion := raising bad h message |}.

End LiveDispatch.

(* ================================================================== *)
(** * Further vocabulary for the gesture recogniser                     *)
(* ================================================================== *)

Module TouchVocabulary.
Import MobileTouch.

(** A move that stays within the movement threshold of the point
    [(x, y)], in both axes. *)
Definition withinThreshold (x y : Z) (i : Input) : Prop :=
  Z.abs (clientX (touches0 (event i)) - x) <= TOUCH_MOVE_THRESHOLD /\
  Z.abs (clientY (touches0 (event i)) - y) <= TOUCH_MOVE_THRESHOLD.

(** A surface on which exactly one long-press is pending: due at [T], for
    the contact that started with event [e] at [(x, y)]. *)
Definition pendingPress (T x y : Z) (e : TouchEvent) (s : Surface) : Prop :=
  exists id,
    timers s = [ {| handle := id; deadline := T; captured := e |} ] /\
    longPressTimer (vars s) = Some id /\
    touchStartX (vars s) = x /\ touchStartY (vars s) = y.

(** A surface with nothing scheduled, whose contact started at [(x, y)]. *)
Definition settledAt (x y : Z) (s : Surface) : Prop :=
  timers s = [] /\ touchStartX (vars s) = x /\ touchStartY (vars s) = y.

(** The direction of a displacement: the horizontal axis when |dx| is
    strictly the larger, else the vertical one. *)
Definition swipeDirection (dx dy : Z) : Direction :=
  if Z.abs dx >? Z.abs dy
  then (if dx >? 0 then Right else Left)
  else (if dy >? 0 then Down else Up).

(** A complete contact sequence, and a stream of them. *)
Record Contact := { first : Input; middle : list Input; last : Input }.

Definition wellFormed (c : Contact) : Prop :=
  is_start (first c) /\ Forall is_move (middle c) /\ is_end (last c).

Definition inputsOf (c : Contact) : list Input :=
  contact (first c) (middle c) (last c).

Definition stream (cs : list Contact) : list Input := flat_map inputsOf cs.

Definition countLongPress (out : list Call) : nat :=
  List.length (filter isLongPress out).

Definition countEndReports (out : list Call) : nat :=
  List.length (filter (fun c => negb (isLongPress c)) out).

Definition only_long_press : Handlers :=
  {| onLongPress := true; onDoubleTap := false; onSwipe := false |}.

End TouchVocabulary.

(* ================================================================== *)
(** * [mobileTouch.ts]: the recogniser with callbacks that may raise    *)
(* ================================================================== *)

(** [MobileTouch] records of a callback only that it is there, and so
    takes every call of it to return.  Here a callback comes with the way
    its calls end.  Nothing in [setupTouchGestures] catches an exception:
    a callback that raises ends the listener then and there, with the
    closure variables as they are at that point.  [handleTouchStart] and
    [handleTouchMove] call no callback and are those of [MobileTouch]. *)

Module TouchCallbacks.
Import MobileTouch.

(** How a call of a callback ends. *)
Inductive Ending := Returned | Raised.

(** The [handlers] argument: each callback absent, or present. *)
Record Callbacks := {
  longPress : option (TouchEvent -> Z -> Z -> Ending);
  doubleTap : option (TouchEvent -> Ending);
  swipe : option (Direction -> Ending)
}.

Definition present {A} (o : option A) : bool :=
  match o with Some _ => true | None => false end.

(** Which callbacks are there: the view [MobileTouch] has of them. *)
Definition configured (c : Callbacks) : Handlers :=
  {| onLongPress := present (longPress c);
     onDoubleTap := present (doubleTap c);
     onSwipe := present (swipe c) |}.

(** What a listener did: the surface it left, the callbacks it called, and
    how it ended. *)
Record Handled := { after : Surface; called : list Call; ending : Ending }.

(** The tail of [handleTouchEnd]: [handlers.onDoubleTap(e)] comes first,
    [lastTapTime = 0] after it. *)
Definition doubleTapDetection (c : Callbacks) (currentTime : Z) (e : TouchEvent)
  (s : Surface) : Handled :=
  match doubleTap c with
  | Some onDoubleTap =>
      if currentTime - lastTapTime (vars s) <? DOUBLE_TAP_DURATION then
        match onDoubleTap e with
        | Returned =>
            {| after := with_vars (set_lastTapTime 0 (vars s)) s;
               called := [DoubleTap e];
               ending := Returned |}
        | Raised =>
            {| after := s; called := [DoubleTap e]; ending := Raised |}
        end
      else
        {| after := with_vars (set_lastTapTime currentTime (vars s)) s;
           called := [];
           ending := Returned |}
  | None => {| after := s; called := []; ending := Returned |}
  end.

(** [handleTouchEnd]. *)
Definition handleTouchEnd (c : Callbacks) (now : Z) (e : TouchEvent)
  (s : Surface) : Handled :=
  let s := cancelLongPress s in
  let touchEndX := clientX (changedTouches0 e) in
  let touchEndY := clientY (changedTouches0 e) in
  let deltaX := touchEndX - touchStartX (vars s) in
  let deltaY := touchEndY - touchStartY (vars s) in
  match swipe c with
  | Some onSwipe =>
      let absX := Z.abs deltaX in
      let absY := Z.abs deltaY in
      if (absX >? minSwipeDistance) || (absY >? minSwipeDistance) then
        if absX >? absY then
          let d := if deltaX >? 0 then Right else Left in
          {| after := s; called := [Swipe d]; ending := onSwipe d |}
        else
          let d := if deltaY >? 0 then Down else Up in
          {| after := s; called := [Swipe d]; ending := onSwipe d |}
      else doubleTapDetection c now e s
  | None => doubleTapDetection c now e s
  end.

(** The event loop: an exception that leaves a listener or a timeout
    callback is reported by the host, and the loop goes on.  The timeout
    callback calls [handlers.onLongPress] and writes nothing, so whether
    that call raises changes nothing for the surface. *)
Definition listener (c : Callbacks) (i : Input) (s : Surface) : Surface * list Call :=
  match kind i with
  | touchstart => (handleTouchStart (configured c) (at_time i) (event i) s, [])
  | touchmove => (handleTouchMove (event i) s, [])
  | touchend =>
      (after (handleTouchEnd c (at_time i) (event i) s),
       called (handleTouchEnd c (at_time i) (event i) s))
  end.

Definition deliver (c : Callbacks) (i : Input) (s : Surface) : Surface * list Call :=
  let (s1, fired) := fire_due (configured c) (at_time i) s in
  let (s2, calls) := listener c i s1 in
  (s2, fired ++ calls).

Fixpoint run (c : Callbacks) (s : Surface) (inputs : list Input) : Surface * list Call :=
  match inputs with
  | [] => (s, [])
  | i :: rest =>
      let (s1, out1) := deliver c i s in
      let (s2, out2) := run c s1 rest in
      (s2, out1 ++ out2)
  end.

Definition outcomes (c : Callbacks) (s : Surface) (start : Input)
  (moves : list Input) (finish : Input) : list Call :=
  snd (run c s (contact start moves finish)).

(** Callbacks all of whose calls return. *)
Definition returning (c : Callbacks) : Prop :=
  (forall f e x y, longPress c = Some f -> f e x y = Returned) /\
  (forall f e, doubleTap c = Some f -> f e = Returned) /\
  (forall f d, swipe c = Some f -> f d = Returned).

(** Callbacks for scenarios: all three present, the double-tap one raising
    or not. *)
Definition callbacks (doubleTapEnds : Ending) : Callbacks :=
  {| longPress := Some (fun _ _ _ => Returned);
     doubleTap := Some (fun _ => doubleTapEnds);
     swipe := Some (fun _ => Returned) |}.

(** The surface after one tap ending at 1000 and the start of a second. *)
Definition afterFirstTap : Surface :=
  fst (MobileTouch.run all_handlers initial
         [start_at 900 0 0; end_at 1000 5 0; start_at 1200 0 0]).

End TouchCallbacks.

(* ================================================================== *)
(** * [mobileTouch.ts]: the utilities around the recogniser             *)
(* ================================================================== *)

Module MobileUtils.
Import MobileBridge.

(** ** The host, beyond the global bindings

    What the utilities read of the browser in addition to [Globals].  A
    field that hangs off [window], [navigator] or [document] is read only
    after that global itself has been read. *)

(** What [window.open] answers: [null], a window whose [opener] can be
    written, or one on which the write raises. *)
Inductive Popup := PopupNull | PopupWritable | PopupGuarded.

(** [navigator.clipboard]: absent, or present with a [writeText] that
    resolves or rejects. *)
Inductive Clipboard := ClipboardAbsent | ClipboardGrants | ClipboardDenies.

(** [document.execCommand('copy')]: a boolean, or an exception. *)
Inductive ExecCommand := ExecReturns (copied : bool) | ExecRaises (e : JsError).

Record Host := {
  globals : Globals;
  ontouchstart : bool;               (* 'ontouchstart' in window *)
  maxTouchPoints : Z;                (* navigator.maxTouchPoints *)
  msMaxTouchPoints : option Z;       (* navigator.msMaxTouchPoints *)
  platform : string;                 (* navigator.platform *)
  screen_width : Z;                  (* window.screen.width *)
  screen_height : Z;                 (* window.screen.height *)
  popup : Popup;                     (* the answer of window.open *)
  clipboard : Clipboard;             (* navigator.clipboard *)
  execCommand : ExecCommand          (* document.execCommand('copy') *)
}.

(** ** Effects and computations of the utilities *)

Inductive UtilEffect :=
| BridgeEffect (f : Effect)
| WindowOpen (url target features : string)
| ClearOpener
| ClipboardWriteText (text : string)
| CreateElement (tag : string)
| SetValue (text : string)
| AppendChild (tag : string)
| RemoveChild (tag : string)
| Focus (tag : string)
| Select (tag : string)
| ExecCopy
| Blur (what : string).

Definition Util (A : Type) : Type := list UtilEffect * Completion A.

Definition pure {A} (a : A) : Util A := ([], Normal a).
Definition raise {A} (e : JsError) : Util A := ([], Throw e).
Definition perform (f : UtilEffect) : Util unit := ([f], Normal tt).

Definition andThen {A B} (m : Util A) (k : A -> Util B) : Util B :=
  match m with
  | (log, Normal a) => let (log', r) := k a in (log ++ log', r)
  | (log, Throw e) => (log, Throw e)
  end.

(** [try { body } catch { handler }]. *)
Definition tryCatch {A} (body : Util A) (handler : JsError -> Util A) : Util A :=
  match body with
  | (log, Normal a) => (log, Normal a)
  | (log, Throw e) => let (log', r) := handler e in (log ++ log', r)
  end.

(** [try { body } finally { cleanup }], for a cleanup that cannot raise. *)
Definition tryFinally {A} (body : Util A) (cleanup : list UtilEffect) : Util A :=
  (fst body ++ cleanup, snd body).

(** A bridge computation run from a utility. *)
Definition viaBridge {A} (m : Js A) : Util A := (map BridgeEffect (fst m), snd m).

Notation "x <~ m ;; k" := (andThen m (fun x => k))
  (at level 61, m at next level, right associativity).
Notation "m ;;> k" := (andThen m (fun _ => k))
  (at level 61, right associativity).

Definition needWindow (host : Host) : Util unit :=
  match window (globals host) with
  | Some _ => pure tt
  | None => raise (ReferenceError "window")
  end.

Definition needNavigator (host : Host) : Util Navigator :=
  match navigator (globals host) with
  | Some n => pure n
  | None => raise (ReferenceError "navigator")
  end.

(** [document] is bound where [window] is. *)
Definition needDocument (host : Host) : Util unit :=
  match window (globals host) with
  | Some _ => pure tt
  | None => raise (ReferenceError "document")
  end.

(** [isMobileAppMode], that is [mobileBridge.isMobileApp()]. *)
Definition isMobileAppMode (this : MobileBridge) : bool := isMobile this.

(** ** [isTouchDevice] *)

Definition isTouchDevice (host : Host) : Util bool :=
  if window_defined (globals host) then
    if ontouchstart host then pure true
    else
      _ <~ needNavigator host ;;
      if maxTouchPoints host >? 0 then pure true
      else pure (match msMaxTouchPoints host with
                 | Some n => n >? 0
                 | None => false
                 end)
  else pure false.

(** ** [isMobileDevice] *)

(** The alternatives of the regular expression. *)
Definition mobileMarkers : list string :=
  ["android"; "webos"; "iphone"; "ipad"; "ipod"; "blackberry"; "iemobile";
   "opera mini"]%string.

Definition isMobileDevice (host : Host) (this : MobileBridge) : Util bool :=
  if isMobileAppMode this then pure true
  else
    n <~ needNavigator host ;;
    let userAgent := toLowerCase (userAgent n) in
    pure (existsb (includes userAgent) mobileMarkers).

(** ** [getDeviceInfo] *)

Record DeviceInfo := {
  info_isMobile : bool;
  info_isTouch : bool;
  info_isMobileApp : bool;
  info_platform : string;
  info_screenWidth : Z;
  info_screenHeight : Z
}.

Definition getDeviceInfo (host : Host) (this : MobileBridge) : Util DeviceInfo :=
  mobile <~ isMobileDevice host this ;;
  touch <~ isTouchDevice host ;;
  let app := isMobileAppMode this in
  _ <~ needNavigator host ;;
  needWindow host ;;>
  pure {| info_isMobile := mobile;
          info_isTouch := touch;
          info_isMobileApp := app;
          info_platform := platform host;
          info_screenWidth := screen_width host;
          info_screenHeight := screen_height host |}.

(** ** [openUrl] *)

Definition openUrl (host : Host) (this : MobileBridge) (url : string) : Util bool :=
  if isMobileAppMode this then
    viaBridge (openExternal (globals host) this url) ;;>
    pure true
  else
    needWindow host ;;>
    perform (WindowOpen url "_blank" "noopener,noreferrer") ;;>
    match popup host with
    | PopupNull => pure false
    | PopupWritable =>
        tryCatch (perform ClearOpener) (fun _ => pure tt) ;;> pure true
    | PopupGuarded =>
        tryCatch (raise (TypeError "opener")) (fun _ => pure tt) ;;> pure true
    end.

(** ** [copyToClipboard]

    The function is [async]; its body runs in order, each [await] resuming
    where it left off, and the completion below is how the promise it
    returns settles.  The style assignments on the textarea are left out. *)

(** The attempt through [navigator.clipboard], inside its [try]: [Some
    true] when it copied, [None] when the fallback is to run. *)
Definition viaClipboard (host : Host) (text : string) : Util (option bool) :=
  tryCatch
    (_ <~ needNavigator host ;;
     match clipboard host with
     | ClipboardAbsent => pure None
     | ClipboardGrants => perform (ClipboardWriteText text) ;;> pure (Some true)
     | ClipboardDenies =>
         perform (ClipboardWriteText text) ;;> raise (Thrown (JsStr "NotAllowedError"))
     end)
    (fun _ => pure None).

Definition viaTextarea (host : Host) (text : string) : Util bool :=
  needDocument host ;;>
  perform (CreateElement "textarea") ;;>
  perform (SetValue text) ;;>
  perform (AppendChild "textarea") ;;>
  perform (Focus "textarea") ;;>
  perform (Select "textarea") ;;>
  tryFinally
    (tryCatch
       (perform ExecCopy ;;>
        match execCommand host with
        | ExecReturns copied => pure copied
        | ExecRaises e => raise e
        end)
       (fun _ => pure false))
    [RemoveChild "textarea"].

Definition copyToClipboard (host : Host) (this : MobileBridge) (text : string)
  : Util bool :=
  if String.eqb text EmptyString then pure false
  else
    attempt <~ (if isMobileAppMode this then viaClipboard host text else pure None) ;;
    match attempt with
    | Some copied => pure copied
    | None => viaTextarea host text
    end.

(** ** [handleVirtualKeyboard] *)

(** The closure variable [hiddenInput]: created yet, or still [null]. *)
Definition KeyboardState := bool.

(** A call of one of the two methods that act; [hide] meets a
    [document.activeElement] that is an [HTMLElement], or is not. *)
Inductive KeyboardCall := show | hide (activeIsElement : bool).

Definition ensureHiddenInput (created : KeyboardState) : list UtilEffect * KeyboardState :=
  if created then ([], true)
  else ([CreateElement "input"; AppendChild "input"], true).

Definition keyboardCall (c : KeyboardCall) (created : KeyboardState)
  : list UtilEffect * KeyboardState :=
  match c with
  | show =>
      let (log, created') := ensureHiddenInput created in
      (log ++ [Focus "input"], created')
  | hide activeIsElement =>
      ((if created then [Blur "input"] else [])
         ++ (if activeIsElement then [Blur "activeElement"] else []),
       created)
  end.

Fixpoint keyboardCalls (cs : list KeyboardCall) (created : KeyboardState)
  : list UtilEffect * KeyboardState :=
  match cs with
  | [] => ([], created)
  | c :: rest =>
      let (log, created') := keyboardCall c created in
      let (log', final) := keyboardCalls rest created' in
      (log ++ log', final)
  end.

(** ** Vocabulary *)

Definition isShow (c : KeyboardCall) : bool :=
  match c with show => true | hide _ => false end.

Definition count (p : UtilEffect -> bool) (log : list UtilEffect) : nat :=
  List.length (filter p log).

Definition isCreate (f : UtilEffect) : bool :=
  match f with CreateElement _ => true | _ => false end.
Definition isAppend (f : UtilEffect) : bool :=
  match f with AppendChild _ => true | _ => false end.
Definition isRemove (f : UtilEffect) : bool :=
  match f with RemoveChild _ => true | _ => false end.
Definition isFocus (f : UtilEffect) : bool :=
  match f with Focus _ => true | _ => false end.
Definition isInputBlur (f : UtilEffect) : bool :=
  match f with Blur "input" => true | _ => false end.
Definition isClipboardWrite (f : UtilEffect) : bool :=
  match f with ClipboardWriteText _ => true | _ => false end.
Definition isWindowOpen (f : UtilEffect) : bool :=
  match f with WindowOpen _ _ _ => true | _ => false end.
Definition isBridgeTransport (f : UtilEffect) : bool :=
  match f with BridgeEffect b => isTransport b | _ => false end.

(** Whether the text ends up copied: through the clipboard when the app
    mode can use it, else by what [execCommand] answers, an exception
    counting as a failure. *)
Definition clipboardUsable (host : Host) (this : MobileBridge) : bool :=
  isMobileAppMode this
  && match navigator (globals host) with Some _ => true | None => false end
  && match clipboard host with ClipboardGrants => true | _ => false end.

Definition copySucceeds (host : Host) (this : MobileBridge) : bool :=
  clipboardUsable host this
  || match execCommand host with
     | ExecReturns copied => copied
     | ExecRaises _ => false
     end.

(** A host for scenarios: a touch-less desktop browser with the given
    user agent. *)
Definition desktop (ua : string) : Host :=
  {| globals := {| window := Some (window_with JsUndefined true JsUndefined);
                   navigator := Some {| userAgent := ua |} |};
     ontouchstart := false;
     maxTouchPoints := 0;
     msMaxTouchPoints := None;
     platform := "Linux x86_64";
     screen_width := 1920;
     screen_height := 1080;
     popup := PopupNull;
     clipboard := ClipboardGrants;
     execCommand := ExecReturns true |}.

Definition with_execCommand (x : ExecCommand) (host : Host) : Host :=
  {| globals := globals host;
     ontouchstart := ontouchstart host;
     maxTouchPoints := maxTouchPoints host;
     msMaxTouchPoints := msMaxTouchPoints host;
     platform := platform host;
     screen_width := screen_width host;
     screen_height := screen_height host;
     popup := popup host;
     clipboard := clipboard host;
     execCommand := x |}.

End MobileUtils.

(* ================================================================== *)
(** * Part III: properties of the gesture recogniser                    *)
(* ================================================================== *)

Module GestureTheory.
Import MobileTouch.

(** ** Unfolding lemmas for the event loop *)

Lemma deliver_eq h i s :
  deliver h i s =
  (fst (listener h i (fst (fire_due h (at_time i) s))),
   snd (fire_due h (at_time i) s)
     ++ snd (listener h i (fst (fire_due h (at_time i) s)))).
Proof.
  unfold deliver, fire_due; cbn [fst snd].
  now destruct (listener h i _).
Qed.

Lemma run_cons h s i rest :
  run h s (i :: rest) =
  (fst (run h (fst (deliver h i s)) rest),
   snd (deliver h i s) ++ snd (run h (fst (deliver h i s)) rest)).
Proof.
  cbn [run]. destruct (deliver h i s) as [s1 o1]; cbn [fst snd].
  now destruct (run h s1 rest).
Qed.

Lemma run_app h a : forall s b,
  run h s (a ++ b) =
  (fst (run h (fst (run h s a)) b),
   snd (run h s a) ++ snd (run h (fst (run h s a)) b)).
Proof.
  induction a as [|i a IH]; intros s b.
  - cbn [app run fst snd]. now destruct (run h s b).
  - rewrite <- app_comm_cons, !run_cons, IH; cbn [fst snd].
    now rewrite app_assoc.
Qed.

(** ** The timeout table *)

Lemma clearTimeout_length t q :
  (List.length (clearTimeout t q) <= List.length q)%nat.
Proof.
  unfold clearTimeout.
  induction q as [|a q IH]; cbn [filter List.length]; [lia|].
  destruct (negb _); cbn [List.length]; lia.
Qed.

Lemma clearTimeout_nil t q : q = [] -> clearTimeout t q = [].
Proof. now intros ->. Qed.

Lemma fire_due_vars h now s : vars (fst (fire_due h now s)) = vars s.
Proof. reflexivity. Qed.

(** Every scheduled timeout runs at most once: what is fired leaves the
    table. *)
Lemma fire_due_budget h now s :
  (List.length (timers (fst (fire_due h now s)))
   + List.length (snd (fire_due h now s)) <= List.length (timers s))%nat.
Proof.
  unfold fire_due; cbn [fst snd timers].
  induction (timers s) as [|t q IH]; cbn [filter flat_map List.length]; [lia|].
  destruct (due now t); cbn [negb flat_map List.length]; [|lia].
  rewrite length_app. unfold longPressCallback at 1.
  destruct (onLongPress h); cbn [List.length]; lia.
Qed.

Lemma fire_due_calls h now s :
  Forall (fun c => isLongPress c = true) (snd (fire_due h now s)).
Proof.
  unfold fire_due; cbn [snd].
  induction (filter (due now) (timers s)) as [|t q IH]; cbn [flat_map].
  - constructor.
  - apply Forall_app; split; [|exact IH].
    unfold longPressCallback. destruct (onLongPress h); repeat constructor.
Qed.

Lemma surface_eta s :
  {| vars := vars s; timers := timers s; fresh := fresh s |} = s.
Proof. now destruct s. Qed.

Lemma fire_due_early h now s :
  Forall (fun t => now < deadline t) (timers s) ->
  fire_due h now s = (s, []).
Proof.
  intros H. unfold fire_due.
  assert (E : filter (fun t => negb (due now t)) (timers s) = timers s
              /\ filter (due now) (timers s) = []).
  { induction H as [|t q Ht _ [IH1 IH2]]; [now split|].
    cbn [filter]. replace (due now t) with false.
    - cbn [negb]. now rewrite IH1, IH2.
    - unfold due. symmetry. apply Z.leb_gt. exact Ht. }
  destruct E as [-> ->]. cbn [flat_map]. now rewrite surface_eta.
Qed.

Lemma fire_due_idle h now s : timers s = [] -> fire_due h now s = (s, []).
Proof. intros E. apply fire_due_early. rewrite E. constructor. Qed.

(** ** The listeners, one at a time *)

Lemma cancelLongPress_touchStartX s :
  touchStartX (vars (cancelLongPress s)) = touchStartX (vars s).
Proof. unfold cancelLongPress. now destruct (longPressTimer (vars s)). Qed.

Lemma cancelLongPress_touchStartY s :
  touchStartY (vars (cancelLongPress s)) = touchStartY (vars s).
Proof. unfold cancelLongPress. now destruct (longPressTimer (vars s)). Qed.

Lemma cancelLongPress_lastTapTime s :
  lastTapTime (vars (cancelLongPress s)) = lastTapTime (vars s).
Proof. unfold cancelLongPress. now destruct (longPressTimer (vars s)). Qed.

Lemma cancelLongPress_timers s :
  (List.length (timers (cancelLongPress s)) <= List.length (timers s))%nat.
Proof.
  unfold cancelLongPress. destruct (longPressTimer (vars s)); cbn [timers].
  - apply clearTimeout_length.
  - lia.
Qed.

Lemma cancelLongPress_longPressTimer s :
  longPressTimer (vars (cancelLongPress s)) = None.
Proof.
  unfold cancelLongPress.
  now destruct (longPressTimer (vars s)) eqn:E.
Qed.

(** [handleTouchEnd] in terms of the displacement and of the state it was
    entered with. *)
Lemma handleTouchEnd_eq h now e s :
  handleTouchEnd h now e s =
  if onSwipe h then
    if (Z.abs (endDeltaX e s) >? minSwipeDistance)
       || (Z.abs (endDeltaY e s) >? minSwipeDistance) then
      if Z.abs (endDeltaX e s) >? Z.abs (endDeltaY e s) then
        (cancelLongPress s, [Swipe (if endDeltaX e s >? 0 then Right else Left)])
      else
        (cancelLongPress s, [Swipe (if endDeltaY e s >? 0 then Down else Up)])
    else doubleTapDetection h now e (cancelLongPress s)
  else doubleTapDetection h now e (cancelLongPress s).
Proof.
  unfold handleTouchEnd, endDeltaX, endDeltaY; cbv zeta.
  now rewrite cancelLongPress_touchStartX, cancelLongPress_touchStartY.
Qed.

Lemma doubleTapDetection_calls h now e s :
  snd (doubleTapDetection h now e s) = [] \/
  snd (doubleTapDetection h now e s) = [DoubleTap e].
Proof.
  unfold doubleTapDetection.
  destruct (onDoubleTap h); [|now left].
  destruct (_ <? _); [now right|now left].
Qed.

Lemma doubleTapDetection_timers h now e s :
  timers (fst (doubleTapDetection h now e s)) = timers s.
Proof.
  unfold doubleTapDetection.
  destruct (onDoubleTap h); [|reflexivity].
  now destruct (_ <? _).
Qed.

(** What contact-end can report: nothing, one swipe, or one double-tap. *)
Lemma handleTouchEnd_calls h now e s :
  snd (handleTouchEnd h now e s) = [] \/
  snd (handleTouchEnd h now e s) = [DoubleTap e] \/
  exists d, snd (handleTouchEnd h now e s) = [Swipe d].
Proof.
  rewrite handleTouchEnd_eq.
  pose proof (doubleTapDetection_calls h now e (cancelLongPress s)) as D.
  destruct (onSwipe h); [|tauto].
  destruct (_ || _); [|tauto].
  destruct (_ >? _); right; right; eexists; reflexivity.
Qed.

Lemma handleTouchEnd_timers h now e s :
  (List.length (timers (fst (handleTouchEnd h now e s))) <= List.length (timers s))%nat.
Proof.
  rewrite handleTouchEnd_eq.
  pose proof (cancelLongPress_timers s) as C.
  pose proof (doubleTapDetection_timers h now e (cancelLongPress s)) as D.
  destruct (onSwipe h); [destruct (_ || _); [destruct (_ >? _)|]|];
    cbn [fst]; rewrite ?D; exact C.
Qed.

Lemma handleTouchMove_touchStartX e s :
  touchStartX (vars (handleTouchMove e s)) = touchStartX (vars s).
Proof.
  unfold handleTouchMove; cbv zeta.
  destruct (_ || _); [|reflexivity].
  now destruct (longPressTimer (vars s)).
Qed.

Lemma handleTouchMove_touchStartY e s :
  touchStartY (vars (handleTouchMove e s)) = touchStartY (vars s).
Proof.
  unfold handleTouchMove; cbv zeta.
  destruct (_ || _); [|reflexivity].
  now destruct (longPressTimer (vars s)).
Qed.

Lemma handleTouchMove_lastTapTime e s :
  lastTapTime (vars (handleTouchMove e s)) = lastTapTime (vars s).
Proof.
  unfold handleTouchMove; cbv zeta.
  destruct (_ || _); [|reflexivity].
  now destruct (longPressTimer (vars s)).
Qed.

Lemma handleTouchMove_timers e s :
  (List.length (timers (handleTouchMove e s)) <= List.length (timers s))%nat.
Proof.
  unfold handleTouchMove; cbv zeta.
  destruct (_ || _); [|lia].
  destruct (longPressTimer (vars s)); cbn [timers]; [apply clearTimeout_length|lia].
Qed.

Lemma handleTouchStart_lastTapTime h now e s :
  lastTapTime (vars (handleTouchStart h now e s)) = lastTapTime (vars s).
Proof. unfold handleTouchStart; cbv zeta. now destruct (onLongPress h). Qed.

Lemma handleTouchStart_touchStart h now e s :
  touchStartX (vars (handleTouchStart h now e s)) = clientX (touches0 e) /\
  touchStartY (vars (handleTouchStart h now e s)) = clientY (touches0 e).
Proof. unfold handleTouchStart; cbv zeta. now destruct (onLongPress h). Qed.

(** The start coordinates that contact-end subtracts are those of the
    contact-start of the same sequence: moves and timeouts leave them
    alone. *)
Lemma start_coordinates_kept h s start moves :
  is_start start -> Forall is_move moves ->
  touchStartX (vars (fst (run h s (start :: moves)))) = clientX (touches0 (event start)) /\
  touchStartY (vars (fst (run h s (start :: moves)))) = clientY (touches0 (event start)).
Proof.
  intros Ks Km. rewrite run_cons; cbn [fst].
  assert (S0 : touchStartX (vars (fst (deliver h start s))) = clientX (touches0 (event start))
               /\ touchStartY (vars (fst (deliver h start s)))
                  = clientY (touches0 (event start))).
  { rewrite deliver_eq; cbn [fst]. unfold listener. unfold is_start in Ks. rewrite Ks.
    cbn [fst]. apply handleTouchStart_touchStart. }
  revert S0. generalize (fst (deliver h start s)) as s0.
  induction Km as [|i rest Ki _ IH]; intros s0 S0; [exact S0|].
  rewrite run_cons; cbn [fst]. apply IH.
  rewrite deliver_eq; cbn [fst]. unfold listener. unfold is_move in Ki. rewrite Ki.
  cbn [fst]. now rewrite handleTouchMove_touchStartX, handleTouchMove_touchStartY.
Qed.

(** ** Swipe *)





(** ** Double tap *)

(** Until the next contact-end, nothing writes [lastTapTime] and only
    long-press callbacks run. *)
Lemma deliver_before_end h i s :
  kind i <> touchend ->
  lastTapTime (vars (fst (deliver h i s))) = lastTapTime (vars s) /\
  Forall (fun c => isLongPress c = true) (snd (deliver h i s)).
Proof.
  intros K. rewrite deliver_eq; cbn [fst snd]. unfold listener.
  destruct (kind i); [| |contradiction]; cbn [fst snd]; rewrite app_nil_r.
  - split; [|apply fire_due_calls].
    now rewrite handleTouchStart_lastTapTime.
  - split; [|apply fire_due_calls].
    now rewrite handleTouchMove_lastTapTime.
Qed.

Lemma run_before_end h inputs : forall s,
  Forall (fun i => kind i <> touchend) inputs ->
  lastTapTime (vars (fst (run h s inputs))) = lastTapTime (vars s) /\
  Forall (fun c => isLongPress c = true) (snd (run h s inputs)).
Proof.
  induction inputs as [|i rest IH]; intros s F.
  - cbn. split; [reflexivity|constructor].
  - inversion F as [|? ? Hi Hrest]; subst.
    rewrite run_cons; cbn [fst snd].
    destruct (deliver_before_end h i s Hi) as [E1 F1].
    destruct (IH (fst (deliver h i s)) Hrest) as [E2 F2].
    split; [congruence|]. apply Forall_app; now split.
Qed.

Lemma isLongPress_not_isDoubleTap c : isLongPress c = true -> isDoubleTap c = false.
Proof. now destruct c. Qed.

(** ** Long press over a contact sequence *)

Lemma clearTimeout_all id q :
  Forall (fun t => Some id = Some (handle t)) q -> clearTimeout id q = [].
Proof.
  unfold clearTimeout. induction 1 as [|t q Ht _ IH]; [reflexivity|].
  cbn [filter]. injection Ht as ->. now rewrite Pos.eqb_refl.
Qed.

Lemma young_start h now e s :
  timers s = [] ->
  young (now + LONG_PRESS_DURATION) (clientX (touches0 e)) (clientY (touches0 e))
        (handleTouchStart h now e s).
Proof.
  intros E. unfold young, handleTouchStart; cbv zeta.
  destruct (onLongPress h); cbn [vars timers]; rewrite E; cbn [app].
  - repeat split. repeat constructor.
  - repeat split. constructor.
Qed.

Lemma young_early T x y s now h :
  young T x y s -> now < T -> fire_due h now s = (s, []).
Proof.
  intros [F _] Hlt. apply fire_due_early.
  eapply Forall_impl; [|exact F]. cbn. intros t [_ ->]. exact Hlt.
Qed.

Lemma young_move T x y e s :
  young T x y s -> young T x y (handleTouchMove e s).
Proof.
  intros (F & X & Y). unfold young.
  rewrite handleTouchMove_touchStartX, handleTouchMove_touchStartY.
  split; [|now split].
  unfold handleTouchMove; cbv zeta.
  destruct (_ || _); [|exact F].
  destruct (longPressTimer (vars s)) as [id|] eqn:L; [|now rewrite L].
  cbn [vars timers]. rewrite clearTimeout_all; [constructor|].
  eapply Forall_impl; [|exact F]. cbn. now intros t [-> _].
Qed.

Lemma deliver_young_move h T x y i s :
  young T x y s -> is_move i -> at_time i < T ->
  young T x y (fst (deliver h i s)) /\ snd (deliver h i s) = [].
Proof.
  intros Y K Hlt. rewrite deliver_eq, (young_early _ _ _ _ _ h Y Hlt).
  unfold listener. unfold is_move in K. rewrite K. cbn [fst snd app].
  split; [now apply young_move|reflexivity].
Qed.

Lemma run_young_moves h T x y moves : forall s,
  young T x y s -> Forall is_move moves ->
  Forall (fun i => at_time i < T) moves ->
  young T x y (fst (run h s moves)) /\ snd (run h s moves) = [].
Proof.
  induction moves as [|i rest IH]; intros s Y K E.
  - now cbn.
  - inversion K; inversion E; subst.
    rewrite run_cons; cbn [fst snd].
    destruct (deliver_young_move h T x y i s) as [Y1 ->]; try assumption.
    destruct (IH (fst (deliver h i s))) as [Y2 ->]; try assumption.
    now split.
Qed.







(** ** Nothing stays scheduled between contact sequences *)

Lemma owned_fire_due h now s : owned s -> owned (fst (fire_due h now s)).
Proof.
  unfold owned, fire_due; cbn [fst vars timers]. intros F.
  apply Forall_forall. intros t Ht. apply filter_In in Ht as [Ht _].
  revert t Ht. now apply Forall_forall.
Qed.

Lemma owned_cancel s : owned s -> timers (cancelLongPress s) = [].
Proof.
  unfold owned, cancelLongPress. intros F.
  destruct (longPressTimer (vars s)) as [id|] eqn:L; cbn [timers].
  - apply clearTimeout_all. eapply Forall_impl; [|exact F]. cbn. now intros t ->.
  - destruct (timers s) as [|t q]; [reflexivity|].
    inversion F; subst. congruence.
Qed.

Lemma owned_move e s : owned s -> owned (handleTouchMove e s).
Proof.
  intros F. unfold handleTouchMove; cbv zeta.
  destruct (_ || _); [|exact F].
  fold (cancelLongPress s). unfold owned. now rewrite owned_cancel.
Qed.

Lemma owned_start h now e s : timers s = [] -> owned (handleTouchStart h now e s).
Proof.
  intros E. unfold owned, handleTouchStart; cbv zeta.
  destruct (onLongPress h); cbn [vars timers]; rewrite E; repeat constructor.
Qed.

Lemma owned_run_moves h moves : forall s,
  owned s -> Forall is_move moves -> owned (fst (run h s moves)).
Proof.
  induction moves as [|i rest IH]; intros s F K; [exact F|].
  inversion K as [|? ? Ki Kr]; subst. rewrite run_cons; cbn [fst].
  apply IH; [|exact Kr].
  rewrite deliver_eq; cbn [fst]. unfold listener. unfold is_move in Ki. rewrite Ki.
  cbn [fst]. now apply owned_move, owned_fire_due.
Qed.

(** A contact sequence that starts with nothing scheduled ends with
    nothing scheduled: the premise of the theorems below holds at binding
    time and again after every complete sequence. *)
Lemma contact_leaves_nothing_scheduled h s start moves finish :
  timers s = [] ->
  is_start start -> Forall is_move moves -> is_end finish ->
  timers (fst (run h s (contact start moves finish))) = [].
Proof.
  intros E Ks Km Kf. unfold contact.
  rewrite run_cons; cbn [fst]. rewrite run_app; cbn [fst].
  rewrite run_cons; cbn [run fst].
  set (s1 := fst (run h (fst (deliver h start s)) moves)).
  assert (O : owned s1).
  { apply owned_run_moves; [|exact Km].
    rewrite deliver_eq, (fire_due_idle h _ s E); cbn [fst].
    unfold listener. unfold is_start in Ks. rewrite Ks. cbn [fst].
    now apply owned_start. }
  rewrite deliver_eq; cbn [fst]. unfold listener. unfold is_end in Kf. rewrite Kf.
  pose proof (owned_cancel _ (owned_fire_due h (at_time finish) s1 O)) as C.
  pose proof (handleTouchEnd_timers h (at_time finish) (event finish)
                (fst (fire_due h (at_time finish) s1))) as L.
  rewrite handleTouchEnd_eq in *.
  pose proof (doubleTapDetection_timers h (at_time finish) (event finish)
                (cancelLongPress (fst (fire_due h (at_time finish) s1)))) as D.
  destruct (onSwipe h); [destruct (_ || _); [destruct (_ >? _)|]|];
    cbn [fst]; rewrite ?D; exact C.
Qed.

(** The teardown of a binding clears the long-press that may still be
    scheduled. *)
Lemma teardown_clears s : owned s -> timers (teardown s) = [].
Proof.
  unfold owned, teardown. intros F.
  destruct (longPressTimer (vars s)) as [id|] eqn:L; cbn [timers].
  - apply clearTimeout_all. eapply Forall_impl; [|exact F]. cbn. now intros t ->.
  - destruct (timers s) as [|t q]; [reflexivity|].
    inversion F; subst. congruence.
Qed.

Lemma initial_nothing_scheduled : timers initial = [].
Proof. reflexivity. Qed.

(** ** How many callbacks a contact sequence can invoke *)

Lemma deliver_move_budget h i s :
  is_move i ->
  (List.length (timers (fst (deliver h i s))) + List.length (snd (deliver h i s))
   <= List.length (timers s))%nat /\
  Forall (fun c => isLongPress c = true) (snd (deliver h i s)).
Proof.
  intros K. rewrite deliver_eq. unfold listener. unfold is_move in K. rewrite K.
  cbn [fst snd]. rewrite app_nil_r.
  split; [|apply fire_due_calls].
  pose proof (fire_due_budget h (at_time i) s).
  pose proof (handleTouchMove_timers (event i) (fst (fire_due h (at_time i) s))).
  lia.
Qed.

Lemma run_moves_budget h moves : forall s,
  Forall is_move moves ->
  (List.length (timers (fst (run h s moves))) + List.length (snd (run h s moves))
   <= List.length (timers s))%nat /\
  Forall (fun c => isLongPress c = true) (snd (run h s moves)).
Proof.
  induction moves as [|i rest IH]; intros s K.
  - cbn. split; [lia|constructor].
  - inversion K; subst. rewrite run_cons; cbn [fst snd].
    destruct (deliver_move_budget h i s) as [B1 F1]; [assumption|].
    destruct (IH (fst (deliver h i s))) as [B2 F2]; [assumption|].
    rewrite length_app. split; [lia|]. apply Forall_app; now split.
Qed.

Lemma handleTouchStart_schedules_one h now e s :
  (List.length (timers (handleTouchStart h now e s)) <= S (List.length (timers s)))%nat.
Proof.
  unfold handleTouchStart; cbv zeta.
  destruct (onLongPress h); cbn [timers]; [rewrite length_app; cbn|]; lia.
Qed.

(** After a wait of 300 ms or more since the recorded tap, contact-end
    reports no double-tap. *)
Lemma handleTouchEnd_after_wait h now e s :
  DOUBLE_TAP_DURATION <= now - lastTapTime (vars s) ->
  snd (handleTouchEnd h now e s) = [] \/
  exists d, snd (handleTouchEnd h now e s) = [Swipe d].
Proof.
  intros Wait. rewrite handleTouchEnd_eq.
  assert (D : snd (doubleTapDetection h now e (cancelLongPress s)) = []).
  { unfold doubleTapDetection. destruct (onDoubleTap h); [|reflexivity].
    rewrite cancelLongPress_lastTapTime.
    destruct (Z.ltb_spec (now - lastTapTime (vars s)) DOUBLE_TAP_DURATION);
      [lia|reflexivity]. }
  destruct (onSwipe h); [|now left].
  destruct (_ || _); [|now left].
  destruct (_ >? _); right; eexists; reflexivity.
Qed.

(** C1, as the code has it.  Over one contact sequence delivered to a
    surface with nothing scheduled, the callbacks invoked are: at most one
    long-press, run by the timer, followed by at most one of swipe and
    double-tap, reported by contact-end.  A long-press that has fired does
    not keep contact-end from reporting a swipe.  It does exclude a
    double-tap, the clock not running backwards (the tap on record is no
    later than the contact-start, no move is later than the contact-end):
    a sequence yields nothing, a long-press, a swipe, a double-tap, or a
    long-press followed by a swipe. *)
Theorem contact_outcomes h s start moves finish :
  timers s = [] ->
  is_start start -> Forall is_move moves -> is_end finish ->
  exists pressed ended,
    outcomes h s start moves finish = pressed ++ ended /\
    (pressed = [] \/ exists e x y, pressed = [LongPress e x y]) /\
    (ended = [] \/ ended = [DoubleTap (event finish)] \/ exists d, ended = [Swipe d]) /\
    (lastTapTime (vars s) <= at_time start ->
     Forall (fun i => at_time i <= at_time finish) moves ->
     pressed <> [] ->
     ended = [] \/ exists d, ended = [Swipe d]).
Proof.
  intros E Ks Km Kf.
  unfold outcomes, contact. rewrite run_cons; cbn [snd].
  (* the contact-start *)
  assert (S0 : snd (deliver h start s) = [] /\
               (List.length (timers (fst (deliver h start s))) <= 1)%nat /\
               young (at_time start + LONG_PRESS_DURATION)
                     (clientX (touches0 (event start)))
                     (clientY (touches0 (event start))) (fst (deliver h start s)) /\
               lastTapTime (vars (fst (deliver h start s))) = lastTapTime (vars s)).
  { rewrite deliver_eq, (fire_due_idle h _ s E); cbn [fst snd app].
    unfold listener. unfold is_start in Ks. rewrite Ks. cbn [fst snd].
    split; [reflexivity|]. split; [|split].
    - pose proof (handleTouchStart_schedules_one h (at_time start) (event start) s) as L.
      rewrite E in L. exact L.
    - now apply young_start.
    - apply handleTouchStart_lastTapTime. }
  destruct S0 as (-> & B0 & Y0 & L0). cbn [app].
  set (s0 := fst (deliver h start s)) in *.
  set (T := at_time start + LONG_PRESS_DURATION) in *.
  (* the moves *)
  rewrite run_app; cbn [snd].
  destruct (run_moves_budget h moves s0 Km) as [B1 F1].
  assert (L1 : lastTapTime (vars (fst (run h s0 moves))) = lastTapTime (vars s)).
  { destruct (run_before_end h moves s0) as [L _]; [|congruence].
    eapply Forall_impl; [|exact Km]. unfold is_move. intros i ->. discriminate. }
  assert (Early : at_time finish < T ->
                  Forall (fun i => at_time i <= at_time finish) moves ->
                  snd (run h s0 moves) = [] /\
                  snd (fire_due h (at_time finish) (fst (run h s0 moves))) = []).
  { intros Lt Hm.
    destruct (run_young_moves h T _ _ moves s0 Y0 Km) as [Y1 O1].
    { eapply Forall_impl; [|exact Hm]. cbn. intros. lia. }
    split; [exact O1|]. now rewrite (young_early _ _ _ _ _ h Y1 Lt). }
  set (s1 := fst (run h s0 moves)) in *.
  (* the contact-end *)
  rewrite run_cons; cbn [run fst snd]. rewrite app_nil_r, deliver_eq; cbn [snd].
  unfold listener. unfold is_end in Kf. rewrite Kf.
  pose proof (fire_due_budget h (at_time finish) s1) as B2.
  pose proof (fire_due_calls h (at_time finish) s1) as F2.
  exists (snd (run h s0 moves) ++ snd (fire_due h (at_time finish) s1)),
         (snd (handleTouchEnd h (at_time finish) (event finish)
                 (fst (fire_due h (at_time finish) s1)))).
  split; [now rewrite app_assoc|]. split; [|split].
  - assert (F : Forall (fun c => isLongPress c = true)
                  (snd (run h s0 moves) ++ snd (fire_due h (at_time finish) s1)))
      by (apply Forall_app; now split).
    assert (B : (List.length (snd (run h s0 moves)
                              ++ snd (fire_due h (at_time finish) s1)) <= 1)%nat)
      by (rewrite length_app; lia).
    destruct (snd (run h s0 moves) ++ snd (fire_due h (at_time finish) s1))
      as [|c [|c' l]]; [now left| |cbn in B; lia].
    right. inversion F as [|? ? Hc _]; subst.
    destruct c; try discriminate. now eexists _, _, _.
  - apply handleTouchEnd_calls.
  - intros Clock Hm Fired.
    destruct (Z.lt_ge_cases (at_time finish) T) as [Lt|Ge].
    + destruct (Early Lt Hm) as [O1 O2]. rewrite O1, O2 in Fired. now contradiction Fired.
    + apply handleTouchEnd_after_wait. rewrite fire_due_vars, L1.
      unfold T, LONG_PRESS_DURATION, DOUBLE_TAP_DURATION in *. lia.
Qed.

(** A press held for 600 ms and released at its starting point: the one
    callback is the long-press. *)
Lemma contact_outcomes_witness :
  exists pressed ended,
    outcomes all_handlers initial (start_at 1000 100 100) [] (end_at 1600 100 100)
    = pressed ++ ended /\
    (pressed = [] \/ exists e x y, pressed = [LongPress e x y]) /\
    (ended = [] \/ ended = [DoubleTap (event (end_at 1600 100 100))]
     \/ exists d, ended = [Swipe d]) /\
    (pressed <> [] -> ended = [] \/ exists d, ended = [Swipe d]).
Proof.
  destruct (contact_outcomes all_handlers initial (start_at 1000 100 100) []
              (end_at 1600 100 100)) as (pressed & ended & O & P & N & X).
  - reflexivity.
  - reflexivity.
  - constructor.
  - reflexivity.
  - exists pressed, ended. split; [exact O|]. split; [exact P|]. split; [exact N|].
    apply X.
    + vm_compute. discriminate.
    + constructor.
Defined.

(** C1, as stated, fails: a press held for 600 ms and then released 80 px to
    the right invokes the long-press handler and, at contact-end, the swipe
    handler as well.  And where a timeout is left over (here by a
    two-finger tap, whose second contact-start overwrote the handle of the
    first), a press held for 700 ms invokes the long-press handler twice,
    once by the timeout left over and once by its own. *)
Lemma long_press_then_swipe :
  (outcomes all_handlers initial (start_at 1000 0 0) [] (end_at 1600 80 0)
   = [LongPress (at_point 0 0) 0 0; Swipe Right] /\
   ~ singleOutcome all_handlers initial (start_at 1000 0 0) [] (end_at 1600 80 0)) /\
  (let s := fst (run all_handlers initial
                   [start_at 1000 0 0; start_at 1100 0 0;
                    end_at 1150 0 0; end_at 1180 40 0]) in
   timers s <> [] /\
   outcomes all_handlers s (start_at 1200 0 0) [] (end_at 1900 0 0)
   = [LongPress (at_point 0 0) 0 0; LongPress (at_point 0 0) 0 0]).
Proof.
  split.
  - split; [reflexivity|].
    unfold singleOutcome. intros H. vm_compute in H. lia.
  - cbv zeta. split; [vm_compute; discriminate|vm_compute; reflexivity].
Qed.

End GestureTheory.

(* ================================================================== *)
(** * Part IV: properties of the bridge                                 *)
(* ================================================================== *)

Module BridgeTheory.
Import MobileBridge.

(** ** Environment detection *)

(** C3, on the code.  With no [window] binding [isMobileApp] raises a
    [ReferenceError] at [window.location.search], past the guarded first
    test; with no [navigator] binding [getPlatform] raises at
    [navigator.userAgent].  Neither returns [false] or [web]. *)
Theorem detection_raises_when_headless :
  (forall nav, isMobileApp {| window := None; navigator := nav |}
               = ([], Throw (ReferenceError "window"))) /\
  (forall win, getPlatform {| window := win; navigator := None |}
               = ([], Throw (ReferenceError "navigator"))) /\
  outcome (isMobileApp headless) <> Normal false /\
  outcome (getPlatform headless) <> Normal web.
Proof.
  split; [|split; [|split]].
  - reflexivity.
  - reflexivity.
  - discriminate.
  - discriminate.
Qed.

(** The constructor tests [typeof window] before it calls [isMobileApp]:
    the singleton is built without error, as not mobile, when there is no
    [window]. *)
Lemma constructor_headless nav :
  constructor {| window := None; navigator := nav |}
  = ([], Normal {| isMobile := false; messageHandlers := []; initialized := false |}).
Proof. reflexivity. Qed.

(** In a browser the two functions do return: [getPlatform] always, and
    [isMobileApp] with the verdict of its four tests. *)
Lemma getPlatform_returns win n :
  exists p, getPlatform {| window := win; navigator := Some n |} = ([], Normal p).
Proof.
  unfold getPlatform, read_navigator; cbn.
  destruct (_ || _); [now eexists|].
  destruct (includes _ _); now eexists.
Qed.

(** ** Outbound: [postMessage] *)

(** C5.  On a bridge that is not mobile, [postMessage] returns normally for
    every message, of every kind, having done nothing but write one line to
    the console: none of the three transports is invoked, whatever the
    environment offers (or lacks) at the time of the call. *)
Theorem postMessage_skips_when_not_mobile g this message :
  isMobile this = false ->
  outcome (postMessage g this message) = Normal tt /\
  transportCalls (effects (postMessage g this message)) = [] /\
  effects (postMessage g this message)
  = [ConsoleLog "[MobileBridge] Not in mobile app, skipping message:"
                (JsStr (BridgeMessageType_name (msg_type message)))].
Proof.
  intros E. unfold postMessage; cbv zeta. rewrite E. now cbn.
Qed.

Lemma postMessage_skips_when_not_mobile_witness :
  transportCalls
    (effects (postMessage
                (browser (window_with (sendObject "uni") false (sendObject "webview")))
                (plain_bridge false)
                {| msg_type := LOGOUT; msg_data := None |})) = [].
Proof.
  apply (postMessage_skips_when_not_mobile
           (browser (window_with (sendObject "uni") false (sendObject "webview")))
           (plain_bridge false) {| msg_type := LOGOUT; msg_data := None |}).
  reflexivity.
Defined.

(** The calculus of computations. *)
Lemma bind_ret {A B} (a : A) (k : A -> Js B) : bind (ret a) k = k a.
Proof. unfold bind, ret. now destruct (k a). Qed.

Lemma bind_lift {A B} (a : A) (k : A -> Js B) : bind (lift (Normal a)) k = k a.
Proof. exact (bind_ret a k). Qed.

Lemma effects_bind_emit {B} f (k : unit -> Js B) :
  effects (bind (emit f) k) = f :: effects (k tt).
Proof. unfold bind, emit, effects. now destruct (k tt). Qed.

Lemma outcome_bind_emit {B} f (k : unit -> Js B) :
  outcome (bind (emit f) k) = outcome (k tt).
Proof. unfold bind, emit, outcome. now destruct (k tt). Qed.

(** The test [window.uni && window.uni.postMessage] on a [window.uni]
    with no direct send on offer. *)
Lemma direct_test_lacks v :
  lacksPostMessage v = true ->
  (if truthy v
   then bind (lift (getProp v "postMessage")) (fun p => ret (truthy p))
   else ret false) = ret false.
Proof.
  unfold lacksPostMessage. destruct (truthy v) eqn:T; cbn [negb orb]; [|reflexivity].
  destruct (getProp v "postMessage") as [p|err] eqn:G; intros L.
  - apply negb_true_iff in L. now rewrite bind_lift, L.
  - destruct v; discriminate.
Qed.

(** Entering [postMessage] on a mobile bridge with a window: what is left
    is the log line and the choice among the transports. *)
Ltac send_on_mobile M W :=
  unfold postMessage; cbv zeta; rewrite M; cbn [negb];
  rewrite effects_bind_emit; unfold read_window; rewrite W, bind_ret.

Lemma offersPostMessage_selected v :
  offersPostMessage v = true ->
  exists fields name, v = JsObj fields /\ lookup "postMessage" fields = JsFun name.
Proof.
  destruct v as [| | | | | |fields]; try discriminate.
  unfold offersPostMessage.
  destruct (lookup "postMessage" fields) as [| | | | |name|] eqn:L; try discriminate.
  intros _. exists fields, name. split; [reflexivity|exact L].
Qed.

(** C4.  On a mobile bridge, with a [window], every [postMessage] picks its
    transport from what the window offers at that call, the bridge keeping
    no memory of earlier picks:
    (a) a [window.uni] offering a [postMessage] function receives the
        message object itself, and nothing else is tried;
    (b) failing (a), a parent frame distinct from the window receives the
        message object itself, addressed to any origin;
    (c) failing (a) and (b), a [window.ReactNativeWebView] offering a
        [postMessage] function receives the message serialised by
        [JSON.stringify];
    and with none of the three, nothing is delivered. *)
Theorem postMessage_transport_priority g w this message :
  isMobile this = true ->
  window g = Some w ->
  let log := effects (postMessage g this message) in
  (offersPostMessage (uni w) = true ->
     transportCalls log = [UniPostMessage message]) /\
  (lacksPostMessage (uni w) = true -> parent_is_window w = false ->
     transportCalls log = [ParentPostMessage message "*"]) /\
  (lacksPostMessage (uni w) = true -> parent_is_window w = true ->
   offersPostMessage (ReactNativeWebView w) = true ->
     transportCalls log = [WebViewPostMessage (JSON_stringify message)]) /\
  (lacksPostMessage (uni w) = true -> parent_is_window w = true ->
   truthy (ReactNativeWebView w) = false ->
     transportCalls log = []) /\
  (forall this', isMobile this' = true ->
     postMessage g this' message = postMessage g this message).
Proof.
  intros M W. cbv zeta.
  split; [|split; [|split; [|split]]].
  - intros O. destruct (offersPostMessage_selected _ O) as (fields & name & U & P).
    send_on_mobile M W. rewrite U.
    cbn [truthy getProp]. rewrite P, bind_lift, bind_ret. cbn [truthy].
    rewrite bind_lift. reflexivity.
  - intros L P.
    send_on_mobile M W.
    rewrite (direct_test_lacks _ L), bind_ret, P. reflexivity.
  - intros L P O. destruct (offersPostMessage_selected _ O) as (fields & name & U & Q).
    send_on_mobile M W.
    rewrite (direct_test_lacks _ L), bind_ret, P, U. cbn [negb truthy getProp].
    rewrite Q, bind_lift. reflexivity.
  - intros L P T.
    send_on_mobile M W.
    rewrite (direct_test_lacks _ L), bind_ret, P, T. reflexivity.
  - intros this' M'. unfold postMessage; cbv zeta. now rewrite M, M'.
Qed.

(** With all three on offer the direct send wins; take it away and the
    parent frame wins; make the window its own parent and the message goes,
    serialised, to the WebView channel. *)
Lemma postMessage_transport_priority_witness :
  let m := {| msg_type := LOGOUT; msg_data := None |} in
  transportCalls
    (effects (postMessage
                (browser (window_with (sendObject "uni") false (sendObject "webview")))
                (plain_bridge true) m))
  = [UniPostMessage m] /\
  transportCalls
    (effects (postMessage
                (browser (window_with JsUndefined false (sendObject "webview")))
                (plain_bridge true) m))
  = [ParentPostMessage m "*"] /\
  transportCalls
    (effects (postMessage
                (browser (window_with JsUndefined true (sendObject "webview")))
                (plain_bridge true) m))
  = [WebViewPostMessage (JSON_stringify m)].
Proof.
  intros m. split; [|split].
  - apply (postMessage_transport_priority
             (browser (window_with (sendObject "uni") false (sendObject "webview")))
             (window_with (sendObject "uni") false (sendObject "webview"))
             (plain_bridge true) m); reflexivity.
  - apply (postMessage_transport_priority
             (browser (window_with JsUndefined false (sendObject "webview")))
             (window_with JsUndefined false (sendObject "webview"))
             (plain_bridge true) m); reflexivity.
  - apply (postMessage_transport_priority
             (browser (window_with JsUndefined true (sendObject "webview")))
             (window_with JsUndefined true (sendObject "webview"))
             (plain_bridge true) m); reflexivity.
Defined.

(** ** Inbound: the subscriber set and [handleNativeMessage] *)

Lemma Set_add_NoDup h s : NoDup s -> NoDup (Set_add h s).
Proof.
  intros N. unfold Set_add. destruct (existsb (Nat.eqb h) s) eqn:E; [exact N|].
  apply NoDup_app; [exact N|repeat constructor; intros []|].
  intros a Ha [Eq|[]]. subst a.
  assert (X : existsb (Nat.eqb h) s = true); [|congruence].
  apply existsb_exists. exists h. split; [exact Ha|apply Nat.eqb_refl].
Qed.

Lemma Set_delete_NoDup h s : NoDup s -> NoDup (Set_delete h s).
Proof. apply NoDup_filter. Qed.

Lemma Set_add_In h s x : In x (Set_add h s) <-> x = h \/ In x s.
Proof.
  unfold Set_add. destruct (existsb (Nat.eqb h) s) eqn:E.
  - split; [tauto|]. intros [->|H]; [|exact H].
    apply existsb_exists in E as (y & Hy & Ey).
    apply Nat.eqb_eq in Ey. now subst.
  - rewrite in_app_iff. cbn. intuition congruence.
Qed.

Lemma Set_delete_In h s x : In x (Set_delete h s) <-> In x s /\ x <> h.
Proof.
  unfold Set_delete. rewrite filter_In, negb_true_iff, Nat.eqb_neq.
  intuition congruence.
Qed.

(** A payload passes the guard exactly when it is an object with a truthy
    [type]. *)
Lemma passesGuard_inv data :
  passesGuard data = true ->
  exists fields, data = JsObj fields /\ truthy (lookup "type" fields) = true.
Proof.
  unfold passesGuard, payloadType.
  destruct data as [| |b|n|s|f|fields]; cbn [truthy getProp andb];
    try discriminate; rewrite ?andb_false_r; try discriminate.
  intros H. now exists fields.
Qed.

Lemma handleNativeMessage_discards behaviour this data :
  passesGuard data = false ->
  handleNativeMessage behaviour this data = ([], Normal tt).
Proof.
  unfold passesGuard, payloadType, handleNativeMessage; cbv zeta.
  destruct (truthy data) eqn:T; cbn [negb andb].
  - destruct (getProp data "type") as [t|err] eqn:G.
    + intros F. now rewrite bind_lift, !bind_ret, F.
    + destruct data; discriminate.
  - intros _. now rewrite bind_ret.
Qed.

Lemma handleNativeMessage_dispatches behaviour this data :
  passesGuard data = true ->
  handleNativeMessage behaviour this data =
  bind (emit (ConsoleLog "[MobileBridge] Received native message:" (payloadType data)))
       (fun _ => forEach (messageHandlers this) (notify behaviour data)).
Proof.
  intros P. destruct (passesGuard_inv _ P) as (fields & -> & T).
  unfold handleNativeMessage, payloadType; cbv zeta. cbn [truthy negb getProp].
  now rewrite bind_lift, !bind_ret, T, bind_lift.
Qed.

(** One round of the loop: the subscriber is called, and whether it
    returns or raises the round ends normally. *)
Lemma notify_eq behaviour message handler :
  notify behaviour message handler =
  (HandlerCall handler message
     :: match behaviour handler message with
        | Normal _ => []
        | Throw error => [ConsoleError "[MobileBridge] Handler error:" error]
        end,
   Normal tt).
Proof.
  unfold notify, callHandler, try_catch, bind, emit, lift.
  destruct (behaviour handler message) as [[]|error]; reflexivity.
Qed.

Lemma forEach_notify behaviour message handlers :
  outcome (forEach handlers (notify behaviour message)) = Normal tt /\
  handlerCalls (effects (forEach handlers (notify behaviour message)))
  = map (fun h => (h, message)) handlers.
Proof.
  induction handlers as [|h rest [IHo IHc]]; [now split|].
  cbn [forEach]. rewrite notify_eq. unfold bind.
  destruct (forEach rest (notify behaviour message)) as [log r].
  unfold outcome, effects in *; cbn [fst snd] in *. split; [exact IHo|].
  unfold handlerCalls in *. cbn [app flat_map]. rewrite flat_map_app, IHc.
  cbn [map]. f_equal.
  destruct (behaviour h message); reflexivity.
Qed.

Lemma called_once message (h : MessageHandler) handlers :
  NoDup handlers ->
  List.length (filter (fun c : MessageHandler * JsValue => Nat.eqb (fst c) h)
                      (map (fun x => (x, message)) handlers))
  = if existsb (Nat.eqb h) handlers then 1%nat else 0%nat.
Proof.
  induction 1 as [|x l Hx N IH]; [reflexivity|].
  cbn [map filter fst existsb]. rewrite (Nat.eqb_sym h x).
  destruct (Nat.eqb_spec x h) as [->|Hne]; cbn [orb List.length].
  - rewrite IH. destruct (existsb (Nat.eqb h) l) eqn:E; [|reflexivity].
    apply existsb_exists in E as (y & Hy & Ey). apply Nat.eqb_eq in Ey. now subst.
  - exact IH.
Qed.

Lemma dispatch_calls behaviour this message :
  passesGuard message = true ->
  outcome (handleNativeMessage behaviour this message) = Normal tt /\
  handlerCalls (effects (handleNativeMessage behaviour this message))
  = map (fun h => (h, message)) (messageHandlers this).
Proof.
  intros P. rewrite (handleNativeMessage_dispatches _ _ _ P).
  rewrite outcome_bind_emit, effects_bind_emit.
  destruct (forEach_notify behaviour message (messageHandlers this)) as [O C].
  split; [exact O|]. unfold handlerCalls in *. cbn [flat_map app]. exact C.
Qed.

Lemma dispatch_timesCalled behaviour this message h :
  NoDup (messageHandlers this) ->
  passesGuard message = true ->
  timesCalled h (effects (handleNativeMessage behaviour this message))
  = if existsb (Nat.eqb h) (messageHandlers this) then 1%nat else 0%nat.
Proof.
  intros N P. unfold timesCalled.
  destruct (dispatch_calls behaviour this message P) as [_ ->].
  now apply called_once.
Qed.

Lemma existsb_In h (s : list MessageHandler) : existsb (Nat.eqb h) s = true <-> In h s.
Proof.
  rewrite existsb_exists. split.
  - intros (y & Hy & E). apply Nat.eqb_eq in E. now subst.
  - intros H. exists h. split; [exact H|apply Nat.eqb_refl].
Qed.

(** The subscriber set of a bridge is duplicate-free from construction on. *)
Lemma constructor_NoDup g this log :
  constructor g = (log, Normal this) -> NoDup (messageHandlers this).
Proof.
  unfold constructor. destruct (window_defined g).
  - destruct (isMobileApp g) as [l [m|e]]; cbn [bind]; [|discriminate].
    unfold init; cbn [initialized set_isMobile].
    destruct (read_window g) as [l' [w|e]]; cbn [bind emit ret app];
      [|intros [=]].
    intros [= _ <-]. constructor.
  - intros [= _ <-]. constructor.
Qed.

Lemma onMessage_NoDup this h :
  NoDup (messageHandlers this) ->
  NoDup (messageHandlers (fst (onMessage this h))) /\
  forall this', NoDup (messageHandlers this') ->
    NoDup (messageHandlers (snd (onMessage this h) this')).
Proof.
  intros N. split.
  - now apply Set_add_NoDup.
  - intros this' N'. now apply Set_delete_NoDup.
Qed.

(** C2, as stated, fails: a payload of type "FOO", outside the four inbound
    kinds, is handed to the subscriber. *)
Lemma unknown_type_is_dispatched :
  outsideEnumeration (inbound "FOO") /\
  handlerCalls
    (effects (handleNativeMessage (raising []) (bridge_with [1%nat]) (inbound "FOO")))
  = [(1%nat, inbound "FOO")] /\
  ~ discardedSilently
      (handleNativeMessage (raising []) (bridge_with [1%nat]) (inbound "FOO")).
Proof.
  split; [reflexivity|]. split; [reflexivity|].
  unfold discardedSilently. discriminate.
Qed.

End BridgeTheory.

(* ================================================================== *)
(** * Part V: further properties of the bridge                          *)
(* ================================================================== *)

Module BridgeFacts.
Import MobileBridge BridgeVocabulary BridgeTheory.

(** ** Platform detection is case-insensitive *)

Lemma lower_idempotent c : lower (lower c) = lower c.
Proof. destruct c as [[] [] [] [] [] [] [] []]; reflexivity. Qed.

Lemma prefix_toLowerCase p : forall s,
  String.prefix p s = true ->
  String.prefix (toLowerCase p) (toLowerCase s) = true.
Proof.
  induction p as [|a p IH]; intros s H.
  - now destruct s.
  - destruct s as [|b s]; [discriminate|].
    cbn [String.prefix toLowerCase] in *.
    destruct (ascii_dec a b) as [->|]; [|discriminate].
    destruct (ascii_dec (lower b) (lower b)); [now apply IH|congruence].
Qed.

Lemma includes_toLowerCase sub : forall s,
  includes s sub = true ->
  includes (toLowerCase s) (toLowerCase sub) = true.
Proof.
  induction s as [|c s IH]; intros H.
  - cbn [includes toLowerCase] in *. apply orb_true_iff in H as [H|H]; [|discriminate].
    apply orb_true_iff. left. now apply (prefix_toLowerCase sub EmptyString).
  - cbn [includes] in H. apply orb_true_iff in H as [H|H].
    + cbn [toLowerCase includes]. apply orb_true_iff. left.
      now apply (prefix_toLowerCase sub (String c s)).
    + cbn [toLowerCase includes]. apply orb_true_iff. right. now apply IH.
Qed.

(** X1.  [getPlatform] ignores letter case and prefers iOS: a user agent
    containing "iphone" or "ipad" in any letter case is [ios], also when it
    mentions Android; one containing "android" in any letter case is never
    [web], and is [android] exactly when the lower-cased agent has neither
    iOS marker. *)
Theorem getPlatform_ignores_case win n marker :
  includes (userAgent n) marker = true ->
  (toLowerCase marker = "iphone"%string \/ toLowerCase marker = "ipad"%string ->
     getPlatform {| window := win; navigator := Some n |} = ([], Normal ios)) /\
  (toLowerCase marker = "android"%string ->
     getPlatform {| window := win; navigator := Some n |}
     = ([], Normal (if includes (toLowerCase (userAgent n)) "iphone"
                       || includes (toLowerCase (userAgent n)) "ipad"
                    then ios else android))).
Proof.
  intros H. apply includes_toLowerCase in H.
  unfold getPlatform, read_navigator; cbn [navigator]. rewrite bind_ret. cbv zeta.
  split.
  - intros [E|E]; rewrite E in H; rewrite H; [reflexivity|].
    now rewrite orb_true_r.
  - intros E. rewrite E in H. rewrite H.
    now destruct (_ || _).
Qed.

Lemma getPlatform_ignores_case_witness :
  getPlatform {| window := None;
                 navigator := Some (agent "Mozilla/5.0 (IPHONE; like Android)") |}
  = ([], Normal ios).
Proof.
  refine (proj1 (getPlatform_ignores_case None
                   (agent "Mozilla/5.0 (IPHONE; like Android)") "IPHONE" _) _).
  - reflexivity.
  - left. reflexivity.
Defined.

(** ** The verdict of [isMobileApp] *)

(** X2.  In a browser (both [window] and [navigator] bound) whose
    [window.uni] is not [null], [isMobileApp] returns, and its verdict is
    the disjunction of the four signals: the page flag, the [mobile=true]
    query parameter, a [window.uni] with a [postMessage], a shell marker in
    the lower-cased user agent. *)
Theorem isMobileApp_is_any_signal w n :
  uni w <> JsNull ->
  isMobileApp {| window := Some w; navigator := Some n |} = ([], Normal (anySignal w n)).
Proof.
  intros U.
  unfold isMobileApp, anySignal, flagSet, mobileParam, bridgeObject, shellMarker,
    read_window, read_navigator; cbn [window navigator].
  destruct (truthy (MOBILE_APP w)); [reflexivity|]. cbn [orb].
  rewrite bind_ret. cbv zeta.
  destruct (match URLSearchParams_get "mobile" (location_search w) with
            | Some v => String.eqb v "true"
            | None => false
            end); [reflexivity|]. cbn [orb].
  destruct (uni w) as [| |b|k|t|f|fields]; try contradiction;
    cbn [defined getProp truthy]; rewrite ?bind_lift, ?bind_ret; cbn [truthy orb];
    rewrite ?bind_ret; try reflexivity.
  destruct (truthy (lookup "postMessage" fields)); rewrite ?bind_ret; reflexivity.
Qed.

Lemma isMobileApp_is_any_signal_witness :
  isMobileApp (browser (window_with (sendObject "uni") true JsUndefined))
  = ([], Normal true).
Proof.
  apply (isMobileApp_is_any_signal (window_with (sendObject "uni") true JsUndefined)
           {| userAgent := "Mozilla/5.0" |}).
  discriminate.
Defined.

(** X3.  The two early signals settle the verdict before anything else is
    read: with the page flag or the query parameter set, [isMobileApp]
    answers [true] even with no [navigator] bound and even with
    [window.uni] being [null].  Without them a [null] [window.uni] makes it
    raise a [TypeError], at [window.uni.postMessage]. *)
Theorem isMobileApp_early_signals_and_null_bridge w nav :
  (flagSet w = true \/ mobileParam w = true ->
     isMobileApp {| window := Some w; navigator := nav |} = ([], Normal true)) /\
  (flagSet w = false -> mobileParam w = false -> uni w = JsNull ->
     isMobileApp {| window := Some w; navigator := nav |}
     = ([], Throw (TypeError "postMessage"))).
Proof.
  unfold isMobileApp, flagSet, mobileParam, read_window; cbn [window]. split.
  - intros [F|P].
    + now rewrite F.
    + destruct (truthy (MOBILE_APP w)); [reflexivity|].
      rewrite bind_ret. cbv zeta. now rewrite P.
  - intros F P U. rewrite F, bind_ret. cbv zeta. rewrite P, U. reflexivity.
Qed.

Lemma isMobileApp_early_signals_and_null_bridge_witness :
  isMobileApp {| window := Some (window_with JsNull true JsUndefined);
                 navigator := None |} = ([], Normal true).
Proof.
  refine (proj1 (isMobileApp_early_signals_and_null_bridge
                   (window_with JsNull true JsUndefined) None) _).
  left. reflexivity.
Defined.

(** ** Construction *)

(** X4.  Where [isMobileApp] returns, the constructor caches its verdict,
    starts with no subscriber and registers exactly two listeners (the
    window's "message", the document's "UniAppBridgeReady"); a further
    [init] on the bridge so built registers nothing.  Where [isMobileApp]
    raises, construction raises the same error, no listener registered. *)
Theorem constructor_registers_once g w :
  window g = Some w ->
  (forall verdict, isMobileApp g = ([], Normal verdict) ->
     let built := {| isMobile := verdict; messageHandlers := []; initialized := true |} in
     constructor g
     = ([AddEventListener "window" "message";
         AddEventListener "document" "UniAppBridgeReady"], Normal built) /\
     init g built = ([], Normal built)) /\
  (forall error, isMobileApp g = ([], Throw error) ->
     constructor g = ([], Throw error)).
Proof.
  intros W. unfold constructor, window_defined. rewrite W. split.
  - intros verdict E. cbv zeta. rewrite E. fold (@ret bool verdict).
    rewrite bind_ret. unfold init, read_window.
    cbn [initialized set_isMobile]. rewrite W, bind_ret. now split.
  - intros error E. now rewrite E.
Qed.

Lemma constructor_registers_once_witness :
  constructor (browser (window_with JsUndefined true JsUndefined))
  = ([AddEventListener "window" "message";
      AddEventListener "document" "UniAppBridgeReady"],
     Normal {| isMobile := true; messageHandlers := []; initialized := true |}).
Proof.
  refine (proj1 (proj1 (constructor_registers_once
                          (browser (window_with JsUndefined true JsUndefined))
                          (window_with JsUndefined true JsUndefined) _) true _)).
  - reflexivity.
  - reflexivity.
Defined.

(** ** The subscriber set *)

Lemma bridge_eta this :
  set_messageHandlers (messageHandlers this) this = this.
Proof. now destruct this. Qed.

Lemma Set_delete_fresh h s : ~ In h s -> Set_delete h s = s.
Proof.
  unfold Set_delete. induction s as [|x s IH]; intros N; [reflexivity|].
  cbn [filter]. destruct (Nat.eqb_spec h x) as [->|Hne]; cbn [negb].
  - exfalso. apply N. now left.
  - f_equal. apply IH. intros H. apply N. now right.
Qed.

Lemma Set_delete_idempotent h s : Set_delete h (Set_delete h s) = Set_delete h s.
Proof.
  apply Set_delete_fresh. intros H. apply Set_delete_In in H. now destruct H.
Qed.

Lemma Set_delete_added h s : ~ In h s -> Set_delete h (Set_add h s) = s.
Proof.
  intros N. unfold Set_add.
  destruct (existsb (Nat.eqb h) s) eqn:E.
  - apply existsb_In in E. contradiction.
  - unfold Set_delete. rewrite filter_app. cbn [filter].
    rewrite Nat.eqb_refl. cbn [negb]. rewrite app_nil_r.
    now apply Set_delete_fresh.
Qed.

(** X5.  Subscribing a handler that is not yet subscribed and then running
    the returned closure gives back the bridge as it was; and the closure
    is idempotent, on any bridge it is run on. *)
Theorem onMessage_unsubscribe_round_trip this h :
  ~ In h (messageHandlers this) ->
  snd (onMessage this h) (fst (onMessage this h)) = this /\
  forall bridge,
    snd (onMessage this h) (snd (onMessage this h) bridge)
    = snd (onMessage this h) bridge.
Proof.
  intros N. unfold onMessage; cbn [fst snd]. split.
  - cbn [messageHandlers set_messageHandlers].
    rewrite (Set_delete_added _ _ N). destruct this; reflexivity.
  - intros bridge. unfold set_messageHandlers; cbn [messageHandlers isMobile initialized].
    now rewrite Set_delete_idempotent.
Qed.

Lemma onMessage_unsubscribe_round_trip_witness :
  snd (onMessage (bridge_with [1; 2]%nat) 3%nat)
      (fst (onMessage (bridge_with [1; 2]%nat) 3%nat))
  = bridge_with [1; 2]%nat.
Proof.
  apply (onMessage_unsubscribe_round_trip (bridge_with [1; 2]%nat) 3%nat).
  cbn. intuition discriminate.
Defined.

(** X6.  Subscriptions are not counted.  Subscribing the same handler a
    second time changes nothing, so the first closure run removes the
    handler altogether, and the other closure then has nothing left to
    do. *)
Theorem onMessage_twice_is_once this h :
  let once := fst (onMessage this h) in
  let twice := fst (onMessage once h) in
  let first := snd (onMessage this h) in
  let second := snd (onMessage once h) in
  twice = once /\
  ~ In h (messageHandlers (first twice)) /\
  second (first twice) = first twice.
Proof.
  cbv zeta. unfold onMessage; cbn [fst snd messageHandlers set_messageHandlers
                                    isMobile initialized].
  assert (A : Set_add h (Set_add h (messageHandlers this)) = Set_add h (messageHandlers this)).
  { unfold Set_add at 1.
    replace (existsb (Nat.eqb h) (Set_add h (messageHandlers this))) with true;
      [reflexivity|].
    symmetry. apply existsb_In, Set_add_In. now left. }
  rewrite A. split; [reflexivity|]. split.
  - intros H. apply Set_delete_In in H. now destruct H.
  - now rewrite Set_delete_idempotent.
Qed.

(** ** More on [postMessage] *)

(** A call through a property read either performs its one effect or
    raises before performing any. *)
Lemma send_through v k eff :
  bind (lift (getProp v k)) (fun f => callHost f eff) = ([eff], Normal tt) \/
  exists e, bind (lift (getProp v k)) (fun f => callHost f eff) = ([], Throw e).
Proof.
  destruct (getProp v k) as [f|e] eqn:G.
  - rewrite bind_lift. destruct f; cbn [callHost]; (now left) || (right; now eexists).
  - right. now exists e.
Qed.

Lemma direct_test_result v :
  (if truthy v
   then bind (lift (getProp v "postMessage")) (fun p => ret (truthy p))
   else ret false) = ret (negb (lacksPostMessage v)).
Proof.
  unfold lacksPostMessage. destruct (truthy v) eqn:T; cbn [negb orb]; [|reflexivity].
  destruct (getProp v "postMessage") as [p|e] eqn:G.
  - rewrite bind_lift. now rewrite negb_involutive.
  - destruct v; discriminate.
Qed.

(** The four ways [postMessage] can end on a mobile bridge, after its log
    line. *)
Lemma postMessage_tail w message :
  let tail :=
    bind (if truthy (uni w)
          then bind (lift (getProp (uni w) "postMessage")) (fun p => ret (truthy p))
          else ret false)
      (fun direct : bool =>
         if direct then
           bind (lift (getProp (uni w) "postMessage"))
                (fun f => callHost f (UniPostMessage message))
         else if negb (parent_is_window w) then
           emit (ParentPostMessage message "*")
         else if truthy (ReactNativeWebView w) then
           bind (lift (getProp (ReactNativeWebView w) "postMessage"))
                (fun f => callHost f (WebViewPostMessage (JSON_stringify message)))
         else
           emit (ConsoleWarn "[MobileBridge] No bridge available for message:"
                   (JsStr (BridgeMessageType_name (msg_type message))))) in
  (exists t, isTransport t = true /\ tail = ([t], Normal tt)) \/
  (exists c, isTransport c = false /\ tail = ([c], Normal tt)) \/
  (exists e, tail = ([], Throw e)).
Proof.
  cbv zeta. rewrite direct_test_result, bind_ret.
  destruct (negb (lacksPostMessage (uni w))).
  - destruct (send_through (uni w) "postMessage" (UniPostMessage message)) as [->|[e ->]].
    + left. now eexists.
    + right. right. now eexists.
  - destruct (negb (parent_is_window w)).
    + left. now eexists.
    + destruct (truthy (ReactNativeWebView w)).
      * destruct (send_through (ReactNativeWebView w) "postMessage"
                    (WebViewPostMessage (JSON_stringify message))) as [->|[e ->]].
        -- left. now eexists.
        -- right. right. now eexists.
      * right. left. now eexists.
Qed.

(** X7.  One call of [postMessage] delivers to at most one transport, on
    any bridge and in any environment; and a call that raises has
    delivered to none. *)
Theorem postMessage_delivers_at_most_once g this message :
  (List.length (transportCalls (effects (postMessage g this message))) <= 1)%nat /\
  (forall e, outcome (postMessage g this message) = Throw e ->
     transportCalls (effects (postMessage g this message)) = []).
Proof.
  unfold postMessage; cbv zeta.
  destruct (isMobile this); cbn [negb].
  2:{ cbn. split; [lia|discriminate]. }
  rewrite effects_bind_emit, outcome_bind_emit. unfold read_window.
  destruct (window g) as [w|].
  2:{ cbn. split; [lia|reflexivity]. }
  rewrite bind_ret.
  destruct (postMessage_tail w message) as [(t & T & ->)|[(c & C & ->)|(e & ->)]];
    unfold transportCalls, effects, outcome; cbn [fst snd filter isTransport];
    rewrite ?T, ?C; cbn [List.length]; split; try lia; try discriminate; reflexivity.
Qed.

(** X8.  [postMessage] returns normally whenever the window's capability
    slots are sound: [window.uni] either fails the test of the direct send
    or offers a [postMessage] function, and [window.ReactNativeWebView] is
    either falsy or offers one.  In particular it returns normally when no
    transport is available at all. *)
Theorem postMessage_returns_on_sound_window g w this message :
  window g = Some w ->
  soundDirect (uni w) = true ->
  soundWebView (ReactNativeWebView w) = true ->
  outcome (postMessage g this message) = Normal tt.
Proof.
  intros W D V. unfold postMessage; cbv zeta.
  destruct (isMobile this); cbn [negb]; [|reflexivity].
  rewrite outcome_bind_emit. unfold read_window. rewrite W, bind_ret.
  rewrite direct_test_result, bind_ret.
  unfold soundDirect in D. unfold soundWebView in V.
  destruct (lacksPostMessage (uni w)) eqn:L; cbn [negb orb] in *.
  - destruct (negb (parent_is_window w)); [reflexivity|].
    destruct (truthy (ReactNativeWebView w)); cbn [negb orb] in V; [|reflexivity].
    destruct (offersPostMessage_selected _ V) as (fields & name & -> & P).
    cbn [getProp]. now rewrite P, bind_lift.
  - destruct (offersPostMessage_selected _ D) as (fields & name & -> & P).
    cbn [getProp]. now rewrite P, bind_lift.
Qed.

Lemma postMessage_returns_on_sound_window_witness :
  outcome (postMessage (browser (window_with JsUndefined true JsUndefined))
             (plain_bridge true) {| msg_type := LOGOUT; msg_data := None |})
  = Normal tt.
Proof.
  apply (postMessage_returns_on_sound_window
           (browser (window_with JsUndefined true JsUndefined))
           (window_with JsUndefined true JsUndefined)); reflexivity.
Defined.

(** ** More on inbound dispatch *)

(** X9.  Only objects are dispatched.  A payload that is not an object (a
    string, also one holding JSON text; a number; a boolean; [null];
    [undefined]) is dropped without a trace, whatever its truthiness: the
    guard reads its [type], and a primitive has none. *)
Theorem inbound_primitives_are_dropped behaviour this data :
  (forall fields, data <> JsObj fields) ->
  handleNativeMessage behaviour this data = ([], Normal tt).
Proof.
  intros N. apply handleNativeMessage_discards.
  unfold passesGuard, payloadType.
  destruct data as [| |b|k|t|f|fields]; cbn [truthy getProp andb];
    rewrite ?andb_false_r; try reflexivity.
  exfalso. now apply (N fields).
Qed.

Lemma inbound_primitives_are_dropped_witness :
  handleNativeMessage (raising []) (bridge_with [1; 2]%nat)
    (JsStr (JSON_stringify {| msg_type := LOGOUT; msg_data := None |}))
  = ([], Normal tt).
Proof.
  apply (inbound_primitives_are_dropped (raising []) (bridge_with [1; 2]%nat)).
  discriminate.
Defined.

(** ** The typed senders *)

Lemma invoke_is_postMessage g this c :
  exists data,
    invoke g this c = postMessage g this {| msg_type := kindOf c; msg_data := data |}.
Proof. destruct c; eexists; reflexivity. Qed.

Lemma postMessage_direct g w this message :
  isMobile this = true -> window g = Some w -> offersPostMessage (uni w) = true ->
  postMessage g this message
  = ([ConsoleLog "[MobileBridge] Sending message to native:"
        (JsStr (BridgeMessageType_name (msg_type message)));
      UniPostMessage message], Normal tt).
Proof.
  intros M W O. destruct (offersPostMessage_selected _ O) as (fields & name & U & P).
  unfold postMessage; cbv zeta. rewrite M; cbn [negb].
  unfold read_window. rewrite W, bind_ret, U. cbn [truthy getProp].
  rewrite P, bind_lift, bind_ret. cbn [truthy]. rewrite bind_lift. reflexivity.
Qed.

(** X11.  Each of the eight typed senders sends one message of the kind it
    is named after, and nothing else: on a bridge that is not mobile it
    reaches no transport and returns; on a mobile bridge whose window
    offers the direct send, that send receives exactly one message, of the
    sender's kind. *)
Theorem typed_senders_send_their_kind g this c :
  (isMobile this = false ->
     transportCalls (effects (invoke g this c)) = [] /\
     outcome (invoke g this c) = Normal tt) /\
  (forall w, isMobile this = true -> window g = Some w ->
     offersPostMessage (uni w) = true ->
     exists m, msg_type m = kindOf c /\
               transportCalls (effects (invoke g this c)) = [UniPostMessage m] /\
               outcome (invoke g this c) = Normal tt).
Proof.
  destruct (invoke_is_postMessage g this c) as [data ->]. split.
  - intros M. unfold postMessage; cbv zeta. rewrite M. now cbn.
  - intros w M W O. rewrite (postMessage_direct g w this _ M W O).
    eexists. split; [|split; reflexivity]. reflexivity.
Qed.

Lemma typed_senders_send_their_kind_witness :
  transportCalls
    (effects (invoke (browser (window_with (sendObject "uni") true JsUndefined))
                (plain_bridge false) (CallOpenExternal "https://example.org")))
  = [].
Proof.
  refine (proj1 (proj1 (typed_senders_send_their_kind
                          (browser (window_with (sendObject "uni") true JsUndefined))
                          (plain_bridge false)
                          (CallOpenExternal "https://example.org")) _)).
  reflexivity.
Defined.

End BridgeFacts.

(* ================================================================== *)
(** * Part VI: further properties of the gesture recogniser             *)
(* ================================================================== *)

Module GestureFacts.
Import MobileTouch TouchVocabulary GestureTheory.

(** ** A press that is held *)

Lemma handleTouchMove_within x y i s :
  touchStartX (vars s) = x -> touchStartY (vars s) = y ->
  withinThreshold x y i ->
  handleTouchMove (event i) s = s.
Proof.
  intros X Y [Wx Wy]. unfold handleTouchMove; cbv zeta. rewrite X, Y.
  destruct (Z.gtb_spec (Z.abs (clientX (touches0 (event i)) - x)) TOUCH_MOVE_THRESHOLD);
    [lia|].
  destruct (Z.gtb_spec (Z.abs (clientY (touches0 (event i)) - y)) TOUCH_MOVE_THRESHOLD);
    [lia|].
  reflexivity.
Qed.

Lemma start_arms h s i :
  timers s = [] -> onLongPress h = true -> is_start i ->
  deliver h i s
  = (handleTouchStart h (at_time i) (event i) s, []) /\
  pendingPress (at_time i + LONG_PRESS_DURATION)
    (clientX (touches0 (event i))) (clientY (touches0 (event i))) (event i)
    (handleTouchStart h (at_time i) (event i) s).
Proof.
  intros E L K. split.
  - rewrite deliver_eq, (fire_due_idle h _ s E). unfold listener.
    unfold is_start in K. now rewrite K.
  - unfold pendingPress, handleTouchStart; cbv zeta. rewrite L.
    exists (fresh s). cbn [timers vars]. rewrite E. now repeat split.
Qed.

Lemma pending_fires h T x y e s now :
  pendingPress T x y e s -> onLongPress h = true -> T <= now ->
  settledAt x y (fst (fire_due h now s)) /\
  snd (fire_due h now s) = [LongPress e x y].
Proof.
  intros (id & Q & _ & X & Y) L D. unfold fire_due, settledAt; cbn [fst snd timers vars].
  rewrite Q. cbn [filter]. unfold due; cbn [deadline].
  replace (T <=? now) with true by (symmetry; now apply Z.leb_le).
  cbn [negb flat_map app]. unfold longPressCallback; cbn [captured].
  rewrite L, X, Y. now repeat split.
Qed.

Lemma pending_waits h T x y e s now :
  pendingPress T x y e s -> now < T -> fire_due h now s = (s, []).
Proof.
  intros (id & Q & _) D. apply fire_due_early. rewrite Q.
  repeat constructor. exact D.
Qed.

Lemma settled_vars x y s :
  settledAt x y s -> touchStartX (vars s) = x /\ touchStartY (vars s) = y.
Proof. now intros (_ & X & Y). Qed.

(** Still moves keep a held press going until the timer is due, and leave
    the surface settled once it has run. *)
Lemma run_still_moves h T x y e moves : forall s,
  onLongPress h = true ->
  Forall is_move moves -> Forall (withinThreshold x y) moves ->
  pendingPress T x y e s ->
  (pendingPress T x y e (fst (run h s moves)) /\ snd (run h s moves) = []) \/
  (settledAt x y (fst (run h s moves)) /\ snd (run h s moves) = [LongPress e x y]).
Proof.
  induction moves as [|i rest IH]; intros s L K W P.
  - left. now split.
  - inversion K as [|? ? Ki Kr]; inversion W as [|? ? Wi Wr]; subst.
    rewrite run_cons; cbn [fst snd].
    unfold is_move in Ki.
    destruct (Z.lt_ge_cases (at_time i) T) as [Early|Late].
    + assert (D : deliver h i s = (s, [])).
      { rewrite deliver_eq, (pending_waits h _ _ _ _ _ _ P Early). unfold listener.
        rewrite Ki. cbn [fst snd app].
        destruct P as (id & _ & _ & X & Y).
        now rewrite (handleTouchMove_within x y i s X Y Wi). }
      rewrite D; cbn [fst snd app]. now apply IH.
    + destruct (pending_fires h _ _ _ _ _ _ P L Late) as [S F].
      right.
      assert (D : deliver h i s = (fst (fire_due h (at_time i) s), [LongPress e x y])).
      { rewrite deliver_eq. unfold listener. rewrite Ki. cbn [fst snd]. rewrite F.
        destruct (settled_vars _ _ _ S) as [X Y].
        now rewrite (handleTouchMove_within x y i _ X Y Wi). }
      rewrite D; cbn [fst snd].
      clear IH D F P K W Ki Wi.
      revert S. generalize (fst (fire_due h (at_time i) s)) as s1.
      induction rest as [|j rest IH]; intros s1 S.
      * now split.
      * inversion Kr as [|? ? Kj Kr']; inversion Wr as [|? ? Wj Wr']; subst.
        rewrite run_cons; cbn [fst snd].
        assert (D : deliver h j s1 = (s1, [])).
        { destruct S as (Q & X & Y).
          rewrite deliver_eq, (fire_due_idle h _ s1 Q). unfold listener.
          unfold is_move in Kj. rewrite Kj. cbn [fst snd app].
          now rewrite (handleTouchMove_within x y j s1 X Y Wj). }
        rewrite D; cbn [fst snd app]. now apply IH.
Qed.

(** X12.  A press that is held: on a surface with nothing scheduled and a
    long-press handler configured, a contact whose moves all stay within
    10 px of the start point in both axes and whose end comes 500 ms or
    more after its start invokes the long-press handler exactly once, first
    of all, with the event and the coordinates of the contact-start;
    whatever contact-end then reports is no long-press. *)
Theorem held_press_fires_long_press h s start moves finish :
  timers s = [] -> onLongPress h = true ->
  is_start start -> Forall is_move moves -> is_end finish ->
  Forall (withinThreshold (clientX (touches0 (event start)))
                          (clientY (touches0 (event start)))) moves ->
  at_time start + LONG_PRESS_DURATION <= at_time finish ->
  exists ended,
    outcomes h s start moves finish
    = LongPress (event start) (clientX (touches0 (event start)))
                (clientY (touches0 (event start))) :: ended /\
    Forall (fun c => isLongPress c = false) ended /\
    (List.length ended <= 1)%nat.
Proof.
  intros E L Ks Km Kf W Late.
  set (x := clientX (touches0 (event start))) in *.
  set (y := clientY (touches0 (event start))) in *.
  set (T := at_time start + LONG_PRESS_DURATION) in *.
  destruct (start_arms h s start E L Ks) as [D0 P0]. fold x y T in P0.
  unfold outcomes, contact. rewrite run_cons, D0; cbn [fst snd app].
  rewrite run_app; cbn [snd].
  set (s0 := handleTouchStart h (at_time start) (event start) s) in *.
  assert (Ended : forall s',
            Forall (fun c => isLongPress c = false)
                   (snd (handleTouchEnd h (at_time finish) (event finish) s')) /\
            (List.length (snd (handleTouchEnd h (at_time finish) (event finish) s')) <= 1)%nat).
  { intros s'.
    destruct (handleTouchEnd_calls h (at_time finish) (event finish) s')
      as [->|[->|[d ->]]]; cbn [List.length]; split; repeat constructor. }
  unfold is_end in Kf.
  destruct (run_still_moves h T x y (event start) moves s0 L Km W P0) as [[P1 O1]|[S1 O1]];
    rewrite O1; rewrite run_cons; cbn [run fst snd]; rewrite app_nil_r, deliver_eq;
    cbn [snd]; unfold listener; rewrite Kf.
  - destruct (pending_fires h _ _ _ _ _ _ P1 L Late) as [_ F]. rewrite F. cbn [app].
    eexists. split; [reflexivity|]. apply Ended.
  - destruct S1 as (Q & _). rewrite (fire_due_idle h _ _ Q). cbn [fst snd app].
    eexists. split; [reflexivity|]. apply Ended.
Qed.

(** The scenario of the specification: 600 ms at (100,100). *)
Lemma held_press_fires_long_press_witness :
  exists ended,
    outcomes all_handlers initial (start_at 1000 100 100) [move_at 1300 104 97]
             (end_at 1600 100 100)
    = LongPress (at_point 100 100) 100 100 :: ended /\
    Forall (fun c => isLongPress c = false) ended /\
    (List.length ended <= 1)%nat.
Proof.
  apply (held_press_fires_long_press all_handlers initial (start_at 1000 100 100)
           [move_at 1300 104 97] (end_at 1600 100 100)).
  - reflexivity.
  - reflexivity.
  - reflexivity.
  - repeat constructor.
  - reflexivity.
  - repeat constructor; vm_compute; discriminate.
  - vm_compute. discriminate.
Defined.

(** ** A press that is released early *)

(** X13.  On a surface with nothing scheduled (no timeout of an earlier
    contact is left over), a contact released before its long-press timer
    is due, all of its events being handled before [start + 500], never
    invokes the long-press handler, however it moved; contact-end cancels
    the timer and nothing is left scheduled that could invoke it later. *)
Theorem quick_release_never_long_presses h s start moves finish :
  timers s = [] ->
  is_start start -> Forall is_move moves -> is_end finish ->
  Forall (fun i => at_time i < at_time start + LONG_PRESS_DURATION) (moves ++ [finish]) ->
  Forall (fun c => isLongPress c = false) (outcomes h s start moves finish) /\
  timers (fst (run h s (contact start moves finish))) = [].
Proof.
  intros E Ks Km Kf Early.
  split; [|now apply contact_leaves_nothing_scheduled].
  apply Forall_app in Early as [EarlyM EarlyF].
  inversion EarlyF as [|? ? EarlyEnd _]; subst.
  set (T := at_time start + LONG_PRESS_DURATION) in *.
  unfold outcomes, contact. rewrite run_cons; cbn [snd].
  rewrite deliver_eq, (fire_due_idle h _ s E); cbn [fst snd app].
  unfold listener at 1 2. unfold is_start in Ks. rewrite Ks. cbn [fst snd app].
  pose proof (young_start h (at_time start) (event start) s E) as Y0. fold T in Y0.
  rewrite run_app; cbn [snd].
  destruct (run_young_moves h T _ _ moves _ Y0 Km EarlyM) as [Y1 ->]. cbn [app].
  rewrite run_cons; cbn [run fst snd]. rewrite app_nil_r, deliver_eq; cbn [snd].
  rewrite (young_early _ _ _ _ _ h Y1 EarlyEnd); cbn [fst snd app].
  unfold listener. unfold is_end in Kf. rewrite Kf.
  destruct (handleTouchEnd_calls h (at_time finish) (event finish)
              (fst (run h (handleTouchStart h (at_time start) (event start) s) moves)))
    as [->|[->|[d ->]]]; repeat constructor.
Qed.

Lemma quick_release_never_long_presses_witness :
  Forall (fun c => isLongPress c = false)
         (outcomes all_handlers initial (start_at 1000 0 0) [move_at 1100 3 3]
                   (end_at 1400 3 3)).
Proof.
  apply (quick_release_never_long_presses all_handlers initial (start_at 1000 0 0)
           [move_at 1100 3 3] (end_at 1400 3 3)).
  - reflexivity.
  - reflexivity.
  - repeat constructor.
  - reflexivity.
  - repeat constructor.
Defined.

(** ** Streams of contact sequences *)

Lemma countLongPress_app a b :
  countLongPress (a ++ b) = (countLongPress a + countLongPress b)%nat.
Proof. unfold countLongPress. now rewrite filter_app, length_app. Qed.

Lemma countEndReports_app a b :
  countEndReports (a ++ b) = (countEndReports a + countEndReports b)%nat.
Proof. unfold countEndReports. now rewrite filter_app, length_app. Qed.

Lemma count_of_long_presses l :
  Forall (fun c => isLongPress c = true) l ->
  countLongPress l = List.length l /\ countEndReports l = 0%nat.
Proof.
  unfold countLongPress, countEndReports.
  induction 1 as [|c l Hc _ [IH1 IH2]]; [now split|].
  cbn [filter]. rewrite Hc. cbn [negb List.length]. now rewrite IH1, IH2.
Qed.

Lemma count_of_end_reports h now e s :
  countLongPress (snd (handleTouchEnd h now e s)) = 0%nat /\
  (countEndReports (snd (handleTouchEnd h now e s)) <= 1)%nat.
Proof.
  destruct (handleTouchEnd_calls h now e s) as [->|[->|[d ->]]];
    cbn; split; lia.
Qed.

(** One contact sequence, delivered with nothing scheduled. *)
Lemma contact_budget h s c :
  timers s = [] -> wellFormed c ->
  timers (fst (run h s (inputsOf c))) = [] /\
  (countLongPress (snd (run h s (inputsOf c))) <= 1)%nat /\
  (countEndReports (snd (run h s (inputsOf c))) <= 1)%nat.
Proof.
  intros E (Ks & Km & Kf). unfold inputsOf.
  split; [now apply contact_leaves_nothing_scheduled|].
  unfold contact. rewrite run_cons; cbn [snd].
  assert (S0 : snd (deliver h (first c) s) = [] /\
               (List.length (timers (fst (deliver h (first c) s))) <= 1)%nat).
  { rewrite deliver_eq, (fire_due_idle h _ s E); cbn [fst snd app].
    unfold listener. unfold is_start in Ks. rewrite Ks. cbn [fst snd].
    split; [reflexivity|].
    pose proof (handleTouchStart_schedules_one h (at_time (first c)) (event (first c)) s) as L.
    rewrite E in L. exact L. }
  destruct S0 as [-> B0]. cbn [app].
  set (s0 := fst (deliver h (first c) s)) in *.
  rewrite run_app; cbn [snd].
  destruct (run_moves_budget h (middle c) s0 Km) as [B1 F1].
  set (s1 := fst (run h s0 (middle c))) in *.
  rewrite run_cons; cbn [run fst snd]. rewrite app_nil_r, deliver_eq; cbn [snd].
  unfold listener. unfold is_end in Kf. rewrite Kf.
  pose proof (fire_due_budget h (at_time (last c)) s1) as B2.
  pose proof (fire_due_calls h (at_time (last c)) s1) as F2.
  destruct (count_of_long_presses _ F1) as [C1 D1].
  destruct (count_of_long_presses _ F2) as [C2 D2].
  destruct (count_of_end_reports h (at_time (last c)) (event (last c))
              (fst (fire_due h (at_time (last c)) s1))) as [C3 D3].
  rewrite !countLongPress_app, !countEndReports_app. lia.
Qed.

(** X14.  Over any stream of complete contact sequences delivered to a
    surface with nothing scheduled, the long-press handler is invoked at
    most once per sequence, contact-ends report at most once per sequence,
    and at the end of the stream nothing is scheduled. *)
Theorem stream_budget h cs : forall s,
  timers s = [] -> Forall wellFormed cs ->
  timers (fst (run h s (stream cs))) = [] /\
  (countLongPress (snd (run h s (stream cs))) <= List.length cs)%nat /\
  (countEndReports (snd (run h s (stream cs))) <= List.length cs)%nat.
Proof.
  induction cs as [|c cs IH]; intros s E W.
  - cbn. repeat split; [exact E|lia|lia].
  - inversion W as [|? ? Wc Wcs]; subst.
    unfold stream; cbn [flat_map]. fold (stream cs).
    rewrite run_app; cbn [fst snd].
    destruct (contact_budget h s c E Wc) as (E1 & L1 & R1).
    destruct (IH _ E1 Wcs) as (E2 & L2 & R2).
    rewrite countLongPress_app, countEndReports_app. cbn [List.length].
    split; [exact E2|]. lia.
Qed.

Lemma stream_budget_witness :
  (countLongPress
     (snd (run all_handlers initial
             (stream [ {| first := start_at 1000 0 0; middle := [];
                          last := end_at 1600 80 0 |};
                       {| first := start_at 2000 0 0; middle := [];
                          last := end_at 2100 0 0 |} ]))) <= 2)%nat.
Proof.
  apply (stream_budget all_handlers
           [ {| first := start_at 1000 0 0; middle := []; last := end_at 1600 80 0 |};
             {| first := start_at 2000 0 0; middle := []; last := end_at 2100 0 0 |} ]
           initial).
  - reflexivity.
  - repeat constructor.
Defined.

(** ** Swipes *)

(** X15.  Contact-end reports a swipe exactly when a swipe handler is
    configured and the larger of |dx|, |dy| exceeds 50: a displacement of
    50 or less in both axes is never a swipe, and without a handler no
    displacement is. *)
Theorem swipe_reported_iff h now e s :
  (exists d, In (Swipe d) (snd (handleTouchEnd h now e s))) <->
  onSwipe h = true /\
  Z.max (Z.abs (endDeltaX e s)) (Z.abs (endDeltaY e s)) > minSwipeDistance.
Proof.
  rewrite handleTouchEnd_eq.
  pose proof (doubleTapDetection_calls h now e (cancelLongPress s)) as D.
  assert (ND : forall d,
             ~ In (Swipe d) (snd (doubleTapDetection h now e (cancelLongPress s)))).
  { intros d. destruct D as [-> | ->]; cbn; intuition discriminate. }
  destruct (onSwipe h).
  2:{ split; [intros [d H]; now apply ND in H|intros [? _]; discriminate]. }
  destruct (Z.gtb_spec (Z.abs (endDeltaX e s)) minSwipeDistance) as [Hx|Hx];
    destruct (Z.gtb_spec (Z.abs (endDeltaY e s)) minSwipeDistance) as [Hy|Hy];
    cbn [orb].
  4:{ split; [intros [d H]; now apply ND in H|intros [_ H]; lia]. }
  all: split; [intros _; split; [reflexivity|lia]|intros _].
  all: destruct (_ >? _); eexists; cbn [snd]; left; reflexivity.
Qed.

(** X16.  A swipe is no tap and leaves the double-tap window as it was:
    after a contact-end that reported a swipe, and whatever starts and
    moves follow, a contact-end that is no swipe and comes less than 300 ms
    after the tap recorded before the swipe reports a double-tap. *)
Theorem swipe_keeps_double_tap_window h s now1 e1 between now2 e2 :
  onSwipe h = true -> onDoubleTap h = true ->
  Z.max (Z.abs (endDeltaX e1 s)) (Z.abs (endDeltaY e1 s)) > minSwipeDistance ->
  Forall (fun i => kind i <> touchend) between ->
  let s2 := fst (run h (fst (handleTouchEnd h now1 e1 s)) between) in
  Z.max (Z.abs (endDeltaX e2 s2)) (Z.abs (endDeltaY e2 s2)) <= minSwipeDistance ->
  now2 - lastTapTime (vars s) < DOUBLE_TAP_DURATION ->
  snd (handleTouchEnd h now2 e2 s2) = [DoubleTap e2].
Proof.
  intros Hs Hd Big Kb s2 Small Quick.
  assert (L1 : lastTapTime (vars (fst (handleTouchEnd h now1 e1 s)))
               = lastTapTime (vars s)).
  { rewrite handleTouchEnd_eq, Hs.
    replace ((Z.abs (endDeltaX e1 s) >? minSwipeDistance)
             || (Z.abs (endDeltaY e1 s) >? minSwipeDistance)) with true.
    - destruct (_ >? _); cbn [fst]; apply cancelLongPress_lastTapTime.
    - symmetry. apply orb_true_iff.
      destruct (Z.max_spec (Z.abs (endDeltaX e1 s)) (Z.abs (endDeltaY e1 s)))
        as [[_ E]|[_ E]]; rewrite E in Big; [right|left]; apply Z.gtb_lt; lia. }
  destruct (run_before_end h between (fst (handleTouchEnd h now1 e1 s)) Kb) as [L2 _].
  fold s2 in L2.
  rewrite handleTouchEnd_eq, Hs.
  destruct (Z.gtb_spec (Z.abs (endDeltaX e2 s2)) minSwipeDistance); [lia|].
  destruct (Z.gtb_spec (Z.abs (endDeltaY e2 s2)) minSwipeDistance); [lia|].
  cbn [orb]. unfold doubleTapDetection. rewrite Hd, cancelLongPress_lastTapTime, L2, L1.
  destruct (Z.ltb_spec (now2 - lastTapTime (vars s)) DOUBLE_TAP_DURATION); [reflexivity|lia].
Qed.

(** A tap ending at 1000, a swipe ending at 1100, a tap ending at 1250. *)
Lemma swipe_keeps_double_tap_window_witness :
  let s := fst (run all_handlers initial
                  [start_at 900 0 0; end_at 1000 0 0; start_at 1050 0 0]) in
  snd (handleTouchEnd all_handlers 1250 (at_point 2 2)
         (fst (run all_handlers (fst (handleTouchEnd all_handlers 1100 (at_point 90 0) s))
                 [start_at 1200 0 0])))
  = [DoubleTap (at_point 2 2)].
Proof.
  intros s.
  apply (swipe_keeps_double_tap_window all_handlers s 1100 (at_point 90 0)
           [start_at 1200 0 0] 1250 (at_point 2 2)).
  - reflexivity.
  - reflexivity.
  - vm_compute. reflexivity.
  - repeat constructor. discriminate.
  - vm_compute. discriminate.
  - vm_compute. reflexivity.
Defined.

(** X19.  What a swipe reports depends on the two end points of the
    contact only: with a swipe handler configured, a contact from its
    start point to an end point more than 50 away in some axis reports,
    last and once, the swipe in the direction of that displacement,
    whichever way the moves in between went and whatever state the surface
    was in; anything invoked before it is a long-press. *)
Theorem swipe_depends_on_end_points h s start moves finish :
  onSwipe h = true ->
  is_start start -> Forall is_move moves -> is_end finish ->
  let dx := clientX (changedTouches0 (event finish)) - clientX (touches0 (event start)) in
  let dy := clientY (changedTouches0 (event finish)) - clientY (touches0 (event start)) in
  Z.max (Z.abs dx) (Z.abs dy) > minSwipeDistance ->
  exists pressed,
    outcomes h s start moves finish = pressed ++ [Swipe (swipeDirection dx dy)] /\
    Forall (fun c => isLongPress c = true) pressed.
Proof.
  intros Hs Ks Km Kf dx dy Big.
  unfold outcomes, contact.
  change (start :: moves ++ [finish]) with ((start :: moves) ++ [finish]).
  rewrite run_app; cbn [snd].
  destruct (start_coordinates_kept h s start moves Ks Km) as [X Y].
  destruct (run_before_end h (start :: moves) s) as [_ F1].
  { constructor.
    - unfold is_start in Ks. congruence.
    - eapply Forall_impl; [|exact Km]. unfold is_move. intros; congruence. }
  set (s1 := fst (run h s (start :: moves))) in *.
  set (o1 := snd (run h s (start :: moves))) in *.
  rewrite (run_cons h s1 finish []); cbn [run fst snd].
  rewrite app_nil_r, deliver_eq; cbn [snd].
  unfold listener. unfold is_end in Kf. rewrite Kf.
  exists (o1 ++ snd (fire_due h (at_time finish) s1)).
  split.
  - rewrite <- app_assoc. f_equal. f_equal.
    rewrite handleTouchEnd_eq, Hs.
    assert (EX : endDeltaX (event finish) (fst (fire_due h (at_time finish) s1)) = dx).
    { unfold endDeltaX. rewrite fire_due_vars, X. reflexivity. }
    assert (EY : endDeltaY (event finish) (fst (fire_due h (at_time finish) s1)) = dy).
    { unfold endDeltaY. rewrite fire_due_vars, Y. reflexivity. }
    rewrite EX, EY.
    replace ((Z.abs dx >? minSwipeDistance) || (Z.abs dy >? minSwipeDistance)) with true.
    + unfold swipeDirection. now destruct (Z.abs dx >? Z.abs dy).
    + symmetry. apply orb_true_iff.
      destruct (Z.max_spec (Z.abs dx) (Z.abs dy)) as [[_ E]|[_ E]];
        rewrite E in Big; [right|left]; apply Z.gtb_lt; lia.
  - apply Forall_app. split; [exact F1|apply fire_due_calls].
Qed.

Lemma swipe_depends_on_end_points_witness :
  exists pressed,
    outcomes all_handlers initial (start_at 1000 0 0)
             [move_at 1050 (-40) 70; move_at 1100 30 (-90)] (end_at 1150 0 (-80))
    = pressed ++ [Swipe Up] /\
    Forall (fun c => isLongPress c = true) pressed.
Proof.
  apply (swipe_depends_on_end_points all_handlers initial (start_at 1000 0 0)
           [move_at 1050 (-40) 70; move_at 1100 30 (-90)] (end_at 1150 0 (-80))).
  - reflexivity.
  - reflexivity.
  - repeat constructor.
  - reflexivity.
  - vm_compute. reflexivity.
Defined.

(** ** Overlapping contacts and teardown *)

(** The surface after two contact-starts in a row, the second before the
    first long-press is due. *)
Lemma two_starts h s i0 i1 :
  timers s = [] -> onLongPress h = true ->
  is_start i0 -> is_start i1 ->
  at_time i1 < at_time i0 + LONG_PRESS_DURATION ->
  fst (run h s [i0; i1])
  = {| vars := {| longPressTimer := Some (Pos.succ (fresh s));
                  touchStartX := clientX (touches0 (event i1));
                  touchStartY := clientY (touches0 (event i1));
                  lastTapTime := lastTapTime (vars s) |};
       timers := [ {| handle := fresh s;
                      deadline := at_time i0 + LONG_PRESS_DURATION;
                      captured := event i0 |};
                   {| handle := Pos.succ (fresh s);
                      deadline := at_time i1 + LONG_PRESS_DURATION;
                      captured := event i1 |} ];
       fresh := Pos.succ (Pos.succ (fresh s)) |}.
Proof.
  intros E L K0 K1 Early.
  destruct (start_arms h s i0 E L K0) as [D0 P0].
  rewrite run_cons, D0; cbn [fst]. rewrite run_cons; cbn [run fst].
  rewrite deliver_eq, (pending_waits h _ _ _ _ _ _ P0 Early); cbn [fst].
  unfold listener. unfold is_start in K1. rewrite K1. cbn [fst].
  unfold handleTouchStart; cbv zeta. rewrite L. cbn [vars timers fresh].
  rewrite E. reflexivity.
Qed.

(** X17.  A contact-start does not cancel a long-press that is still
    pending.  When a second contact-start arrives before the first
    long-press is due, and no contact-end in between, both timers stay
    scheduled and both run: the handler is invoked twice, each time with
    the coordinates of the second start.  A move beyond the threshold then
    cancels the later timer only, and the earlier one still runs. *)
Theorem overlapping_starts_fire_twice h s i0 i1 now :
  timers s = [] -> onLongPress h = true ->
  is_start i0 -> is_start i1 ->
  at_time i0 <= at_time i1 ->
  at_time i1 < at_time i0 + LONG_PRESS_DURATION ->
  at_time i1 + LONG_PRESS_DURATION <= now ->
  let x := clientX (touches0 (event i1)) in
  let y := clientY (touches0 (event i1)) in
  snd (fire_due h now (fst (run h s [i0; i1])))
  = [LongPress (event i0) x y; LongPress (event i1) x y] /\
  (forall m, is_move m -> movedBeyondThreshold x y m ->
     snd (fire_due h now (handleTouchMove (event m) (fst (run h s [i0; i1]))))
     = [LongPress (event i0) x y]).
Proof.
  intros E L K0 K1 Order Early Late x y.
  rewrite (two_starts h s i0 i1 E L K0 K1 Early).
  assert (D0 : (at_time i0 + LONG_PRESS_DURATION <=? now) = true)
    by (apply Z.leb_le; lia).
  assert (D1 : (at_time i1 + LONG_PRESS_DURATION <=? now) = true)
    by (apply Z.leb_le; lia).
  split.
  - unfold fire_due; cbn [snd timers vars filter]. unfold due; cbn [deadline].
    rewrite D0, D1. cbn [flat_map app]. unfold longPressCallback.
    rewrite L. reflexivity.
  - intros m Km M. unfold movedBeyondThreshold in M.
    unfold handleTouchMove; cbv zeta. cbn [vars touchStartX touchStartY longPressTimer].
    fold x y.
    replace ((Z.abs (clientX (touches0 (event m)) - x) >? TOUCH_MOVE_THRESHOLD)
             || (Z.abs (clientY (touches0 (event m)) - y) >? TOUCH_MOVE_THRESHOLD))
      with true.
    2:{ symmetry. apply orb_true_iff.
        destruct M; [left|right]; apply Z.gtb_lt; lia. }
    unfold fire_due, clearTimeout; cbn [snd timers vars filter handle].
    rewrite Pos.eqb_refl.
    replace (fresh s =? Pos.succ (fresh s))%positive with false
      by (symmetry; apply Pos.eqb_neq; lia).
    cbn [negb filter]. unfold due; cbn [deadline]. rewrite D0. cbn [flat_map app].
    unfold longPressCallback. rewrite L. reflexivity.
Qed.

Lemma overlapping_starts_fire_twice_witness :
  snd (fire_due only_long_press 1800
         (fst (run only_long_press initial [start_at 1000 10 10; start_at 1200 50 60])))
  = [LongPress (at_point 10 10) 50 60; LongPress (at_point 50 60) 50 60].
Proof.
  refine (proj1 (overlapping_starts_fire_twice only_long_press initial
                   (start_at 1000 10 10) (start_at 1200 50 60) 1800 _ _ _ _ _ _ _)).
  - reflexivity.
  - reflexivity.
  - reflexivity.
  - reflexivity.
  - vm_compute. discriminate.
  - vm_compute. reflexivity.
  - vm_compute. discriminate.
Defined.

(** X18.  Tearing a binding down in the middle of a press cancels the
    press: after a contact-start and any moves on a surface that had
    nothing scheduled, the teardown leaves nothing scheduled, and no
    long-press callback runs at any later time. *)
Theorem teardown_cancels_pending_press h s start moves now :
  timers s = [] ->
  is_start start -> Forall is_move moves ->
  timers (teardown (fst (run h s (start :: moves)))) = [] /\
  snd (fire_due h now (teardown (fst (run h s (start :: moves))))) = [].
Proof.
  intros E Ks Km.
  assert (O : owned (fst (run h s (start :: moves)))).
  { rewrite run_cons; cbn [fst]. apply owned_run_moves; [|exact Km].
    rewrite deliver_eq, (fire_due_idle h _ s E); cbn [fst].
    unfold listener. unfold is_start in Ks. rewrite Ks. cbn [fst].
    now apply owned_start. }
  pose proof (teardown_clears _ O) as T.
  split; [exact T|]. now rewrite (fire_due_idle h now _ T).
Qed.

Lemma teardown_cancels_pending_press_witness :
  snd (fire_due all_handlers 5000
         (teardown (fst (run all_handlers initial [start_at 1000 0 0; move_at 1100 2 2]))))
  = [].
Proof.
  apply (teardown_cancels_pending_press all_handlers initial (start_at 1000 0 0)
           [move_at 1100 2 2] 5000).
  - reflexivity.
  - reflexivity.
  - repeat constructor.
Defined.

End GestureFacts.

(* ================================================================== *)
(** * Part VII: properties of the utilities                             *)
(* ================================================================== *)

Module UtilsTheory.
Import MobileBridge BridgeVocabulary BridgeTheory BridgeFacts MobileUtils.

Lemma andThen_pure {A B} (a : A) (k : A -> Util B) : andThen (pure a) k = k a.
Proof. unfold andThen, pure. now destruct (k a). Qed.

Lemma andThen_raise {A B} (e : JsError) (k : A -> Util B) :
  andThen (raise e) k = raise e.
Proof. reflexivity. Qed.

Lemma andThen_perform {B} f (k : unit -> Util B) :
  andThen (perform f) k = (f :: fst (k tt), snd (k tt)).
Proof. unfold andThen, perform. now destruct (k tt). Qed.

(** ** Device detection *)

(** X20.  The two detectors agree: whenever [getPlatform] answers [ios] or
    [android], [isMobileDevice] answers [true], on any bridge; and on a
    mobile bridge [isMobileDevice] answers [true] without reading the user
    agent, even where no [navigator] is bound. *)
Theorem platform_implies_mobile_device host this :
  (forall p, getPlatform (globals host) = ([], Normal p) -> p <> web ->
     isMobileDevice host this = ([], Normal true)) /\
  (isMobile this = true -> isMobileDevice host this = ([], Normal true)).
Proof.
  split.
  - intros p G Hp. unfold isMobileDevice, isMobileAppMode.
    destruct (isMobile this); [reflexivity|].
    unfold getPlatform, read_navigator in G. unfold needNavigator.
    destruct (navigator (globals host)) as [n|]; [|discriminate].
    rewrite bind_ret in G. cbv zeta in G. rewrite andThen_pure. cbv zeta.
    unfold mobileMarkers; cbn [existsb].
    destruct (includes (toLowerCase (userAgent n)) "iphone") eqn:I1;
      [now rewrite !orb_true_r|].
    destruct (includes (toLowerCase (userAgent n)) "ipad") eqn:I2;
      [now rewrite !orb_true_r|].
    cbn [orb] in G.
    destruct (includes (toLowerCase (userAgent n)) "android") eqn:I3; [reflexivity|].
    injection G as <-. contradiction.
  - intros M. unfold isMobileDevice, isMobileAppMode. now rewrite M.
Qed.

Lemma platform_implies_mobile_device_witness :
  isMobileDevice (desktop "Mozilla/5.0 (Linux; Android 14)") (plain_bridge false)
  = ([], Normal true).
Proof.
  refine (proj1 (platform_implies_mobile_device
                   (desktop "Mozilla/5.0 (Linux; Android 14)") (plain_bridge false))
                android _ _).
  - reflexivity.
  - discriminate.
Defined.

(** X21.  [getDeviceInfo] returns only where both [window] and
    [navigator] are bound, performs nothing, and its record is consistent:
    [isMobileApp] is the bridge's cached verdict, and a record that says
    [isMobileApp] also says [isMobile]. *)
Theorem getDeviceInfo_is_consistent host this log info :
  getDeviceInfo host this = (log, Normal info) ->
  log = [] /\
  window (globals host) <> None /\
  navigator (globals host) <> None /\
  info_isMobileApp info = isMobile this /\
  (info_isMobileApp info = true -> info_isMobile info = true).
Proof.
  unfold getDeviceInfo, isMobileDevice, isTouchDevice, isMobileAppMode,
    needNavigator, needWindow, window_defined.
  destruct (navigator (globals host)) as [n|].
  - destruct (window (globals host)) as [w|].
    + destruct (isMobile this) eqn:M; rewrite ?andThen_pure; cbv zeta;
        rewrite ?andThen_pure;
        destruct (ontouchstart host); rewrite ?andThen_pure;
        try destruct (maxTouchPoints host >? 0); rewrite ?andThen_pure;
        intros [= <- <-]; cbn; repeat split; congruence.
    + destruct (isMobile this); rewrite ?andThen_pure; cbv zeta;
        rewrite ?andThen_pure; discriminate.
  - destruct (isMobile this); rewrite ?andThen_pure; cbv zeta.
    + destruct (window (globals host)); rewrite ?andThen_pure.
      * destruct (ontouchstart host); rewrite ?andThen_pure; discriminate.
      * discriminate.
    + discriminate.
Qed.

Lemma getDeviceInfo_is_consistent_witness :
  info_isMobileApp
    {| info_isMobile := true; info_isTouch := false; info_isMobileApp := true;
       info_platform := "Linux x86_64"; info_screenWidth := 1920;
       info_screenHeight := 1080 |}
  = isMobile (plain_bridge true).
Proof.
  refine (proj1 (proj2 (proj2 (proj2
            (getDeviceInfo_is_consistent (desktop "Mozilla/5.0") (plain_bridge true)
               [] _ _))))).
  reflexivity.
Defined.

(** ** [openUrl] *)

Lemma count_bridge_effects p (log : list Effect) :
  (forall f, p (BridgeEffect f) = false) ->
  count p (map BridgeEffect log) = 0%nat.
Proof.
  intros H. unfold count. induction log as [|f log IH]; [reflexivity|].
  cbn [map filter]. now rewrite H.
Qed.

Lemma count_app p a b : count p (a ++ b) = (count p a + count p b)%nat.
Proof. unfold count. now rewrite filter_app, length_app. Qed.

Lemma openUrl_app_mode host this url :
  isMobile this = true ->
  openUrl host this url
  = andThen (viaBridge (openExternal (globals host) this url)) (fun _ => pure true).
Proof. intros M. unfold openUrl, isMobileAppMode. now rewrite M. Qed.

Lemma postMessage_nothing_available g w this message :
  isMobile this = true -> window g = Some w ->
  lacksPostMessage (uni w) = true -> parent_is_window w = true ->
  truthy (ReactNativeWebView w) = false ->
  postMessage g this message
  = ([ConsoleLog "[MobileBridge] Sending message to native:"
        (JsStr (BridgeMessageType_name (msg_type message)));
      ConsoleWarn "[MobileBridge] No bridge available for message:"
        (JsStr (BridgeMessageType_name (msg_type message)))], Normal tt).
Proof.
  intros M W L P T. unfold postMessage; cbv zeta. rewrite M; cbn [negb].
  unfold read_window. rewrite W, bind_ret, (direct_test_lacks _ L), bind_ret, P, T.
  reflexivity.
Qed.

(** X22.  In app mode [openUrl] never opens a window, and it answers
    [true] without knowing whether the request went anywhere: on a mobile
    bridge whose window offers no transport at all, the request is dropped
    with a warning and [openUrl] still answers [true]. *)
Theorem openUrl_app_mode_reports_success host this url :
  isMobile this = true ->
  count isWindowOpen (fst (openUrl host this url)) = 0%nat /\
  (forall w,
     window (globals host) = Some w ->
     lacksPostMessage (uni w) = true -> parent_is_window w = true ->
     truthy (ReactNativeWebView w) = false ->
     snd (openUrl host this url) = Normal true /\
     count isBridgeTransport (fst (openUrl host this url)) = 0%nat).
Proof.
  intros M. rewrite (openUrl_app_mode host this url M). split.
  - unfold andThen, viaBridge.
    destruct (openExternal (globals host) this url) as [log [[]|e]]; cbn [fst snd pure].
    + rewrite app_nil_r. now apply count_bridge_effects.
    + now apply count_bridge_effects.
  - intros w W L P T. unfold openExternal.
    rewrite (postMessage_nothing_available _ w this _ M W L P T).
    split; reflexivity.
Qed.

Lemma openUrl_app_mode_reports_success_witness :
  snd (openUrl (desktop "Mozilla/5.0") (plain_bridge true) "https://example.org")
  = Normal true.
Proof.
  refine (proj1 (proj2 (openUrl_app_mode_reports_success (desktop "Mozilla/5.0")
                          (plain_bridge true) "https://example.org" _)
                   (window_with JsUndefined true JsUndefined) _ _ _ _)); reflexivity.
Defined.

(** X23.  Outside app mode [openUrl] asks for exactly one window and
    leaves the bridge alone; its answer says whether [window.open] gave a
    window back, and a window whose [opener] cannot be written counts as
    opened just the same.  With no [window] bound it raises. *)
Theorem openUrl_browser_mode host this url :
  isMobile this = false ->
  (window (globals host) <> None ->
     snd (openUrl host this url)
     = Normal (match popup host with PopupNull => false | _ => true end) /\
     count isWindowOpen (fst (openUrl host this url)) = 1%nat /\
     forall f, ~ In (BridgeEffect f) (fst (openUrl host this url))) /\
  (window (globals host) = None ->
     openUrl host this url = ([], Throw (ReferenceError "window"))).
Proof.
  intros M. unfold openUrl, isMobileAppMode, needWindow. rewrite M. split.
  - intros W. destruct (window (globals host)) as [w|]; [|contradiction].
    rewrite andThen_pure, andThen_perform.
    destruct (popup host); cbn; repeat split; intros f H; intuition discriminate.
  - intros W. now rewrite W.
Qed.

Lemma openUrl_browser_mode_witness :
  snd (openUrl (desktop "Mozilla/5.0") (plain_bridge false) "https://example.org")
  = Normal false.
Proof.
  refine (proj1 (proj1 (openUrl_browser_mode (desktop "Mozilla/5.0")
                          (plain_bridge false) "https://example.org" _) _)).
  - reflexivity.
  - discriminate.
Defined.

(** ** [copyToClipboard] *)

(** X24.  The textarea never outlives the call.  For every text, bridge
    and host, and however [execCommand] and the clipboard behave,
    [copyToClipboard] removes the textarea exactly as often as it appended
    it, at most once; and for the empty text it answers [false] having
    touched neither the clipboard nor the document. *)
Theorem copyToClipboard_removes_its_textarea host this text :
  count isAppend (fst (copyToClipboard host this text))
  = count isRemove (fst (copyToClipboard host this text)) /\
  (count isAppend (fst (copyToClipboard host this text)) <= 1)%nat /\
  (text = EmptyString -> copyToClipboard host this text = ([], Normal false)).
Proof.
  unfold copyToClipboard, viaClipboard, viaTextarea, isMobileAppMode,
    needNavigator, needDocument, tryFinally, tryCatch.
  destruct (String.eqb_spec text EmptyString) as [->|Hne].
  - cbn. repeat split. lia.
  - destruct (isMobile this), (navigator (globals host)), (clipboard host),
      (window (globals host)), (execCommand host) as [[]|];
      cbn; repeat split; try lia; try (intros; contradiction).
Qed.

(** X25.  Where a document exists, [copyToClipboard] of a non-empty text
    always settles with a boolean, and that boolean is [true] exactly when
    the clipboard was usable (app mode, a [navigator], a [writeText] that
    resolves) or [execCommand] answered [true]: a [writeText] that rejects
    falls back to the textarea, and an [execCommand] that raises counts as
    not copied. *)
Theorem copyToClipboard_settles host this text :
  text <> EmptyString ->
  window (globals host) <> None ->
  snd (copyToClipboard host this text) = Normal (copySucceeds host this).
Proof.
  intros Hne W.
  unfold copyToClipboard, copySucceeds, clipboardUsable, viaClipboard, viaTextarea,
    isMobileAppMode, needNavigator, needDocument, tryFinally, tryCatch.
  destruct (String.eqb_spec text EmptyString) as [E|_]; [contradiction|].
  destruct (window (globals host)); [|contradiction].
  destruct (isMobile this), (navigator (globals host)), (clipboard host),
    (execCommand host) as [[]|]; reflexivity.
Qed.

Lemma copyToClipboard_settles_witness :
  snd (copyToClipboard
         (with_execCommand (ExecRaises (Thrown JsNull)) (desktop "Mozilla/5.0"))
         (plain_bridge false) "text")
  = Normal false.
Proof.
  apply (copyToClipboard_settles
           (with_execCommand (ExecRaises (Thrown JsNull)) (desktop "Mozilla/5.0"))
           (plain_bridge false) "text"); discriminate.
Defined.

(** X26.  The clipboard API is an app-mode path only: outside app mode
    [copyToClipboard] never calls [writeText], whatever the browser
    offers; in app mode, where [writeText] resolves, the call is the one
    thing done (no textarea is created) and the answer is [true]. *)
Theorem copyToClipboard_clipboard_is_app_only host this text :
  (isMobile this = false ->
     count isClipboardWrite (fst (copyToClipboard host this text)) = 0%nat) /\
  (isMobile this = true -> text <> EmptyString ->
   navigator (globals host) <> None -> clipboard host = ClipboardGrants ->
     copyToClipboard host this text = ([ClipboardWriteText text], Normal true)).
Proof.
  unfold copyToClipboard, viaClipboard, viaTextarea, isMobileAppMode,
    needNavigator, needDocument, tryFinally, tryCatch.
  split.
  - intros M. rewrite M.
    destruct (String.eqb text EmptyString); [reflexivity|].
    destruct (window (globals host)), (execCommand host) as [[]|]; reflexivity.
  - intros M Hne N C. rewrite M, C.
    destruct (String.eqb_spec text EmptyString) as [E|_]; [contradiction|].
    destruct (navigator (globals host)); [reflexivity|contradiction].
Qed.

Lemma copyToClipboard_clipboard_is_app_only_witness :
  count isClipboardWrite
    (fst (copyToClipboard (desktop "Mozilla/5.0") (plain_bridge false) "text"))
  = 0%nat.
Proof.
  refine (proj1 (copyToClipboard_clipboard_is_app_only (desktop "Mozilla/5.0")
                   (plain_bridge false) "text") _).
  reflexivity.
Defined.

(** ** [handleVirtualKeyboard] *)

Lemma keyboardCalls_cons c cs created :
  keyboardCalls (c :: cs) created
  = (fst (keyboardCall c created)
       ++ fst (keyboardCalls cs (snd (keyboardCall c created))),
     snd (keyboardCalls cs (snd (keyboardCall c created)))).
Proof.
  cbn [keyboardCalls]. destruct (keyboardCall c created) as [log created'].
  cbn [fst snd]. now destruct (keyboardCalls cs created').
Qed.

(** X27.  The hidden input of the virtual keyboard is created lazily and
    once.  Over any sequence of [show] and [hide] calls, a helper that has
    not created its input yet creates and appends it exactly once if
    [show] is ever called and never otherwise ([hide] creates nothing); a
    helper that has created it never creates another; and every [show]
    focuses the input. *)
Theorem hidden_input_is_created_once created cs :
  count isCreate (fst (keyboardCalls cs created))
  = (if created then 0 else if existsb isShow cs then 1 else 0)%nat /\
  count isAppend (fst (keyboardCalls cs created))
  = (if created then 0 else if existsb isShow cs then 1 else 0)%nat /\
  count isFocus (fst (keyboardCalls cs created)) = List.length (filter isShow cs) /\
  snd (keyboardCalls cs created) = created || existsb isShow cs.
Proof.
  revert created. induction cs as [|c cs IH]; intros created.
  - cbn. destruct created; repeat split.
  - rewrite keyboardCalls_cons; cbn [fst snd]. rewrite !count_app.
    destruct (IH (snd (keyboardCall c created))) as (A & B & C & D).
    rewrite A, B, C, D.
    destruct c as [|active], created; try destruct active;
      cbn; repeat split; try reflexivity;
      try (now destruct (existsb isShow cs)).
Qed.

End UtilsTheory.

(* ================================================================== *)
(** * Part VIII: the recogniser with callbacks that may raise           *)
(* ================================================================== *)

Module CallbackTheory.
Import MobileTouch GestureTheory TouchCallbacks.

(** ** The two embeddings agree where callbacks return *)

Lemma doubleTapDetection_returning c now e s :
  returning c ->
  doubleTapDetection c now e s
  = {| after := fst (MobileTouch.doubleTapDetection (configured c) now e s);
       called := snd (MobileTouch.doubleTapDetection (configured c) now e s);
       ending := Returned |}.
Proof.
  intros (_ & R & _).
  unfold doubleTapDetection, MobileTouch.doubleTapDetection, configured; cbn [onDoubleTap].
  destruct (doubleTap c) as [f|] eqn:D; cbn [present]; [|reflexivity].
  destruct (_ <? _); [|reflexivity].
  now rewrite (R f e eq_refl).
Qed.

Lemma handleTouchEnd_returning c now e s :
  returning c ->
  handleTouchEnd c now e s
  = {| after := fst (MobileTouch.handleTouchEnd (configured c) now e s);
       called := snd (MobileTouch.handleTouchEnd (configured c) now e s);
       ending := Returned |}.
Proof.
  intros R. pose proof (doubleTapDetection_returning c now e (cancelLongPress s) R) as D.
  destruct R as (_ & _ & R).
  unfold handleTouchEnd, MobileTouch.handleTouchEnd; cbv zeta.
  unfold configured at 1 4; cbn [onSwipe].
  destruct (swipe c) as [f|] eqn:W; cbn [present]; [|exact D].
  destruct (_ || _); [|exact D].
  destruct (_ >? _); cbn [fst snd]; now rewrite (R f _ eq_refl).
Qed.

(** ** Unfolding lemmas *)

Lemma callbacks_deliver_eq c i s :
  deliver c i s =
  (fst (listener c i (fst (fire_due (configured c) (at_time i) s))),
   snd (fire_due (configured c) (at_time i) s)
     ++ snd (listener c i (fst (fire_due (configured c) (at_time i) s)))).
Proof.
  unfold deliver, fire_due; cbn [fst snd].
  now destruct (listener c i _).
Qed.

Lemma callbacks_run_cons c s i rest :
  run c s (i :: rest) =
  (fst (run c (fst (deliver c i s)) rest),
   snd (deliver c i s) ++ snd (run c (fst (deliver c i s)) rest)).
Proof.
  cbn [run]. destruct (deliver c i s) as [s1 o1]; cbn [fst snd].
  now destruct (run c s1 rest).
Qed.

Lemma callbacks_run_app c a : forall s b,
  run c s (a ++ b) =
  (fst (run c (fst (run c s a)) b),
   snd (run c s a) ++ snd (run c (fst (run c s a)) b)).
Proof.
  induction a as [|i a IH]; intros s b.
  - cbn [app run fst snd]. now destruct (run c s b).
  - rewrite <- app_comm_cons, !callbacks_run_cons, IH; cbn [fst snd].
    now rewrite app_assoc.
Qed.

(** Up to the contact-end no callback but the long-press one is called,
    and the two event loops coincide. *)
Lemma callbacks_deliver_before_end c i s :
  kind i <> touchend ->
  deliver c i s = MobileTouch.deliver (configured c) i s.
Proof.
  intros K. rewrite callbacks_deliver_eq, GestureTheory.deliver_eq.
  unfold listener, MobileTouch.listener. destruct (kind i); [reflexivity|reflexivity|].
  contradiction.
Qed.

Lemma callbacks_run_before_end c inputs : forall s,
  Forall (fun i => kind i <> touchend) inputs ->
  run c s inputs = MobileTouch.run (configured c) s inputs.
Proof.
  induction inputs as [|i rest IH]; intros s F; [reflexivity|].
  inversion F as [|? ? Hi Hrest]; subst.
  rewrite callbacks_run_cons, GestureTheory.run_cons, (callbacks_deliver_before_end c i s Hi).
  now rewrite (IH _ Hrest).
Qed.

(** ** Double tap *)

Lemma handleTouchEnd_without_swipe c now e s :
  Forall (fun x => isSwipe x = false) (called (handleTouchEnd c now e s)) ->
  handleTouchEnd c now e s = doubleTapDetection c now e (cancelLongPress s).
Proof.
  unfold handleTouchEnd; cbv zeta. intros F.
  destruct (swipe c) as [f|]; [|reflexivity].
  destruct (_ || _); [|reflexivity].
  destruct (_ >? _); cbn [called] in F; inversion F; discriminate.
Qed.

Lemma handleTouchEnd_after_reset c now e s :
  lastTapTime (vars s) = 0 -> DOUBLE_TAP_DURATION <= now ->
  Forall (fun x => isDoubleTap x = false) (called (handleTouchEnd c now e s)).
Proof.
  intros L Clock. unfold handleTouchEnd; cbv zeta.
  assert (D : Forall (fun x => isDoubleTap x = false)
                (called (doubleTapDetection c now e (cancelLongPress s)))).
  { unfold doubleTapDetection. destruct (doubleTap c) as [f|]; [|constructor].
    rewrite cancelLongPress_lastTapTime, L.
    destruct (Z.ltb_spec (now - 0) DOUBLE_TAP_DURATION); [lia|constructor]. }
  destruct (swipe c) as [f|]; [|exact D].
  destruct (_ || _); [|exact D].
  destruct (_ >? _); repeat constructor.
Qed.

(** C7, as the code has it.  Let a contact-end report no swipe, with a
    double-tap callback configured.  If the end time minus [lastTapTime]
    is below 300, the double-tap callback is the one callback called; when
    that call returns, [lastTapTime] becomes 0, and then the next contact
    sequence reports no double-tap however soon its end arrives, the clock
    [Date.now()] reading (as milliseconds since the epoch do) at least
    300; when that call raises, the exception leaves the listener and
    [lastTapTime] stays as it was.  Otherwise nothing is called and
    [lastTapTime] becomes the end time. *)
Theorem double_tap_resets_when_callback_returns c onDoubleTap now e s :
  doubleTap c = Some onDoubleTap ->
  Forall (fun x => isSwipe x = false) (called (handleTouchEnd c now e s)) ->
  (now - lastTapTime (vars s) < DOUBLE_TAP_DURATION ->
     called (handleTouchEnd c now e s) = [DoubleTap e] /\
     (onDoubleTap e = Returned ->
        ending (handleTouchEnd c now e s) = Returned /\
        lastTapTime (vars (after (handleTouchEnd c now e s))) = 0 /\
        forall start moves finish,
          is_start start -> Forall is_move moves -> is_end finish ->
          DOUBLE_TAP_DURATION <= at_time finish ->
          Forall (fun x => isDoubleTap x = false)
                 (outcomes c (after (handleTouchEnd c now e s)) start moves finish)) /\
     (onDoubleTap e = Raised ->
        ending (handleTouchEnd c now e s) = Raised /\
        lastTapTime (vars (after (handleTouchEnd c now e s))) = lastTapTime (vars s))) /\
  (DOUBLE_TAP_DURATION <= now - lastTapTime (vars s) ->
     called (handleTouchEnd c now e s) = [] /\
     ending (handleTouchEnd c now e s) = Returned /\
     lastTapTime (vars (after (handleTouchEnd c now e s))) = now).
Proof.
  intros Hd Hns.
  rewrite (handleTouchEnd_without_swipe c now e s Hns).
  unfold doubleTapDetection. rewrite Hd, cancelLongPress_lastTapTime.
  destruct (Z.ltb_spec (now - lastTapTime (vars s)) DOUBLE_TAP_DURATION) as [Hlt|Hge].
  - split; [intros _|lia]. split; [now destruct (onDoubleTap e)|]. split.
    + intros R. rewrite R. cbn [ending after called vars with_vars set_lastTapTime
                                 lastTapTime].
      split; [reflexivity|]. split; [reflexivity|].
      intros start moves finish Ks Km Kf Clock.
      set (s2 := with_vars (set_lastTapTime 0 (vars (cancelLongPress s)))
                   (cancelLongPress s)).
      assert (L2 : lastTapTime (vars s2) = 0) by reflexivity.
      unfold outcomes, contact.
      change (start :: moves ++ [finish]) with ((start :: moves) ++ [finish]).
      rewrite callbacks_run_app; cbn [snd].
      assert (B : Forall (fun i => kind i <> touchend) (start :: moves)).
      { constructor.
        - unfold is_start in Ks. congruence.
        - eapply Forall_impl; [|exact Km]. unfold is_move. intros; congruence. }
      rewrite (callbacks_run_before_end c (start :: moves) s2 B).
      destruct (GestureTheory.run_before_end (configured c) (start :: moves) s2 B)
        as [L3 F3].
      apply Forall_app; split.
      { eapply Forall_impl; [|exact F3]. apply isLongPress_not_isDoubleTap. }
      set (s3 := fst (MobileTouch.run (configured c) s2 (start :: moves))) in *.
      rewrite (callbacks_run_cons c s3 finish []); cbn [run fst snd].
      rewrite app_nil_r, callbacks_deliver_eq; cbn [snd].
      apply Forall_app; split.
      { eapply Forall_impl; [|apply fire_due_calls]. apply isLongPress_not_isDoubleTap. }
      unfold listener. unfold is_end in Kf. rewrite Kf. cbn [snd].
      apply handleTouchEnd_after_reset; [|exact Clock].
      rewrite fire_due_vars. congruence.
    + intros R. rewrite R. cbn [ending after]. split; [reflexivity|].
      apply cancelLongPress_lastTapTime.
  - split; [lia|intros _]. now cbn.
Qed.

(** Two quick taps ending at 1000 and 1250, the callback returning: the
    second end reports the double-tap and a third tap ending at 1260
    reports none. *)
Lemma double_tap_resets_when_callback_returns_witness :
  called (handleTouchEnd (callbacks Returned) 1250 (at_point 5 0) afterFirstTap)
  = [DoubleTap (at_point 5 0)] /\
  Forall (fun x => isDoubleTap x = false)
    (outcomes (callbacks Returned)
       (after (handleTouchEnd (callbacks Returned) 1250 (at_point 5 0) afterFirstTap))
       (start_at 1255 0 0) [] (end_at 1260 5 0)).
Proof.
  destruct (double_tap_resets_when_callback_returns (callbacks Returned)
              (fun _ => Returned) 1250 (at_point 5 0) afterFirstTap)
    as [[E [[_ [_ T]] _]] _].
  - reflexivity.
  - vm_compute. repeat constructor.
  - vm_compute. reflexivity.
  - reflexivity.
  - split; [exact E|].
    apply T; try reflexivity; try constructor.
    vm_compute. discriminate.
Defined.

(** C7, as stated, fails where the double-tap callback raises: the reset
    to zero, written after the call, is skipped, [lastTapTime] stays at
    1000, and the third tap, ending 10 ms after the double-tap, is reported
    as another double-tap. *)
Lemma raising_double_tap_fires_again :
  let second := handleTouchEnd (callbacks Raised) 1250 (at_point 5 0) afterFirstTap in
  called second = [DoubleTap (at_point 5 0)] /\
  lastTapTime (vars (after second)) = 1000 /\
  outcomes (callbacks Raised) (after second) (start_at 1255 0 0) [] (end_at 1260 5 0)
  = [DoubleTap (at_point 5 0)].
Proof. cbv zeta. repeat split; vm_compute; reflexivity. Qed.

End CallbackTheory.

(* ================================================================== *)
(** * Part IX: dispatch over the live subscriber set                    *)
(* ================================================================== *)

Module DispatchTheory.
Import MobileBridge BridgeVocabulary BridgeTheory LiveDispatch.

(** ** The entries behind the set *)







(** An entry stays where it is as long as its value is not deleted. *)
Lemma act_keeps a d p h :
  a <> Unsubscribe h ->
  nth_error d p = Some (Some h) -> nth_error (act a d) p = Some (Some h).
Proof.
  intros Ne E. destruct a as [x|x]; cbn [act].
  - unfold SetData_add. destruct (existsb (holds x) d); [exact E|].
    rewrite nth_error_app1; [exact E|].
    apply nth_error_Some. congruence.
  - unfold SetData_delete. rewrite nth_error_map, E. cbn [option_map holds].
    destruct (Nat.eqb_spec x h) as [->|_]; [congruence|reflexivity].
Qed.

Lemma actAll_keeps h acts : forall d p,
  ~ In (Unsubscribe h) acts ->
  nth_error d p = Some (Some h) -> nth_error (actAll acts d) p = Some (Some h).
Proof.
  unfold actAll. induction acts as [|a acts IH]; intros d p Ni E; [exact E|].
  cbn [fold_left]. apply IH.
  - intros I. apply Ni. now right.
  - apply act_keeps; [|exact E]. intros ->. apply Ni. now left.
Qed.





(** ** One step of the walk *)

Lemma forEach_end subscriber message fuel index count d :
  nth_error d index = None ->
  forEach subscriber message fuel index count d
  = {| walk_trace := ret tt; walk_data := d; walk_ended := true |}.
Proof. intros E. destruct fuel; cbn [forEach]; now rewrite E. Qed.

Lemma forEach_out_of_fuel subscriber message index count d entry :
  nth_error d index = Some entry ->
  forEach subscriber message 0 index count d
  = {| walk_trace := ret tt; walk_data := d; walk_ended := false |}.
Proof. intros E. cbn [forEach]. now rewrite E. Qed.

Lemma forEach_skip subscriber message fuel index count d :
  nth_error d index = Some None ->
  forEach subscriber message (S fuel) index count d
  = forEach subscriber message fuel (S index) count d.
Proof. intros E. cbn [forEach]. now rewrite E. Qed.

Lemma forEach_call subscriber message fuel index count d handler :
  nth_error d index = Some (Some handler) ->
  forEach subscriber message (S fuel) index count d
  = let reaction := subscriber count handler message in
    let rest := forEach subscriber message fuel (S index) (S count)
                        (actAll (actions reaction) d) in
    {| walk_trace := (HandlerCall handler message
                        :: errorLine (completion reaction) ++ effects (walk_trace rest),
                      outcome (walk_trace rest));
       walk_data := walk_data rest;
       walk_ended := walk_ended rest |}.
Proof.
  intros E. cbn [forEach]. rewrite E. cbv zeta. rewrite notify_eq.
  unfold errorLine. now destruct (completion (subscriber count handler message)).
Qed.

Lemma handlerCalls_call h message c log :
  handlerCalls (HandlerCall h message :: errorLine c ++ log)
  = (h, message) :: handlerCalls log.
Proof.
  unfold handlerCalls. cbn [flat_map app]. rewrite flat_map_app.
  now destruct c.
Qed.


(** ** The walk as a whole *)



Lemma skipn_at {A} (l : list A) : forall index x,
  nth_error l index = Some x -> skipn index l = x :: skipn (S index) l.
Proof.
  induction l as [|y l IH]; intros [|index] x E; try discriminate.
  - now injection E as ->.
  - cbn [nth_error] in E. cbn [skipn]. exact (IH index x E).
Qed.



(** A handler held by the set in an entry the walk has not passed, and
    unsubscribed by nobody, is called. *)
Lemma forEach_reaches subscriber message h p :
  neverUnsubscribes subscriber message h ->
  forall fuel index count d,
  nth_error d p = Some (Some h) ->
  (index <= p < index + fuel)%nat ->
  In (h, message)
     (handlerCalls (effects (walk_trace (forEach subscriber message fuel index count d)))).
Proof.
  intros U. induction fuel as [|fuel IH]; intros index count d P L; [lia|].
  destruct (nth_error d index) as [[handler|]|] eqn:E.
  - rewrite (forEach_call _ _ _ _ _ _ _ E). cbv zeta.
    cbn [walk_trace effects fst]. rewrite handlerCalls_call.
    destruct (Nat.eq_dec index p) as [->|Ne].
    + left. congruence.
    + right. apply IH; [|lia].
      apply actAll_keeps; [apply U|exact P].
  - rewrite (forEach_skip _ _ _ _ _ _ E).
    assert (index <> p) by congruence.
    apply IH; [exact P|lia].
  - apply nth_error_None in E.
    assert (p < List.length d)%nat by (apply nth_error_Some; congruence). lia.
Qed.


(** The error lines of a walk are what its calls raised, call by call. *)
Lemma forEach_errors subscriber message fuel : forall index count d,
  consoleErrors (effects (walk_trace (forEach subscriber message fuel index count d)))
  = raisedDuring subscriber count
      (handlerCalls (effects (walk_trace (forEach subscriber message fuel index count d)))).
Proof.
  induction fuel as [|fuel IH]; intros index count d.
  - destruct (nth_error d index) as [entry|] eqn:E.
    + now rewrite (forEach_out_of_fuel _ _ _ _ _ _ E).
    + now rewrite (forEach_end _ _ _ _ _ _ E).
  - destruct (nth_error d index) as [[handler|]|] eqn:E.
    + rewrite (forEach_call _ _ _ _ _ _ _ E). cbv zeta.
      cbn [walk_trace effects fst]. rewrite handlerCalls_call.
      cbn [raisedDuring]. rewrite <- IH.
      unfold consoleErrors. cbn [flat_map app]. rewrite flat_map_app.
      now destruct (completion (subscriber count handler message)).
    + rewrite (forEach_skip _ _ _ _ _ _ E). apply IH.
    + now rewrite (forEach_end _ _ _ _ _ _ E).
Qed.

(** Over subscribers that leave the set alone, the walk is the loop of
    Part II over the handlers from [index] on. *)
Lemma forEach_steady behaviour message hs : forall fuel index count,
  (List.length hs - index <= fuel)%nat ->
  walk_trace (forEach (steady behaviour) message fuel index count (entries hs))
  = MobileBridge.forEach (skipn index hs) (notify behaviour message).
Proof.
  induction fuel as [|fuel IH]; intros index count F.
  - assert (L : (List.length hs <= index)%nat) by lia.
    rewrite forEach_end.
    + now rewrite skipn_all2.
    + apply nth_error_None. unfold entries. now rewrite length_map.
  - destruct (nth_error hs index) as [handler|] eqn:Eh.
    + assert (E : nth_error (entries hs) index = Some (Some handler)).
      { unfold entries. now rewrite nth_error_map, Eh. }
      rewrite (forEach_call _ _ _ _ _ _ _ E). cbv zeta.
      cbn [walk_trace steady actions completion]. unfold actAll; cbn [fold_left].
      assert (Lt : (index < List.length hs)%nat).
      { apply nth_error_Some. congruence. }
      rewrite (skipn_at hs index handler Eh). cbn [MobileBridge.forEach].
      rewrite notify_eq, <- (IH (S index) (S count)) by lia.
      unfold bind, effects, outcome, errorLine.
      destruct (walk_trace _) as [log r]. cbn [fst snd].
      now destruct (behaviour handler message).
    + assert (E : nth_error (entries hs) index = None).
      { unfold entries. now rewrite nth_error_map, Eh. }
      rewrite (forEach_end _ _ _ _ _ _ E).
      apply nth_error_None in Eh. now rewrite skipn_all2.
Qed.

(** ** The dispatch *)

Lemma live_dispatch_discards subscriber fuel this data :
  passesGuard data = false ->
  handleNativeMessage subscriber fuel this data
  = {| trace := ([], Normal tt); bridge := this; finished := true |}.
Proof.
  unfold passesGuard, payloadType, handleNativeMessage; cbv zeta.
  destruct (truthy data) eqn:T; cbn [negb andb].
  - destruct (getProp data "type") as [t|err] eqn:G.
    + intros F. now rewrite bind_lift, F.
    + destruct data; discriminate.
  - reflexivity.
Qed.

Lemma live_dispatch_walks subscriber fuel this data :
  passesGuard data = true ->
  handleNativeMessage subscriber fuel this data
  = let walk := forEach subscriber data fuel 0 0 (entries (messageHandlers this)) in
    {| trace := (ConsoleLog "[MobileBridge] Received native message:" (payloadType data)
                   :: effects (walk_trace walk),
                 outcome (walk_trace walk));
       bridge := set_messageHandlers (values (walk_data walk)) this;
       finished := walk_ended walk |}.
Proof.
  intros P. destruct (passesGuard_inv _ P) as (fields & -> & T).
  unfold handleNativeMessage, payloadType; cbv zeta. cbn [truthy negb getProp].
  now rewrite bind_lift, T.
Qed.


(** Part II is the dispatch over subscribers that leave the set alone. *)
Lemma steady_dispatch behaviour fuel this data :
  (List.length (messageHandlers this) <= fuel)%nat ->
  trace (handleNativeMessage (steady behaviour) fuel this data)
  = MobileBridge.handleNativeMessage behaviour this data.
Proof.
  intros F. destruct (passesGuard data) eqn:P.
  - rewrite (live_dispatch_walks _ _ _ _ P), (handleNativeMessage_dispatches _ _ _ P).
    cbv zeta. cbn [trace]. rewrite forEach_steady by lia. rewrite skipn_0.
    unfold bind, emit, effects, outcome.
    now destruct (MobileBridge.forEach _ _).
  - now rewrite (live_dispatch_discards _ _ _ _ P), (handleNativeMessage_discards _ _ _ P).
Qed.

Lemma handlerCalls_log text arg log :
  handlerCalls (ConsoleLog text arg :: log) = handlerCalls log.
Proof. reflexivity. Qed.


Lemma registered_entry h hs :
  In h hs ->
  exists p, (p < List.length hs)%nat /\ nth_error (entries hs) p = Some (Some h).
Proof.
  intros I. apply In_nth_error in I as [p E]. exists p. split.
  - apply nth_error_Some. congruence.
  - unfold entries. now rewrite nth_error_map, E.
Qed.



(** ** Isolation of failing handlers *)




(** ** The guard of the dispatch *)

(** C2, as the code has it.  The guard of [handleNativeMessage] is
    truthiness: a payload that is falsy, or whose [type] is missing or
    falsy, is dropped with no subscriber called, nothing logged, no error
    and the bridge as it was (so [null], [{}] and [{type: ""}] are); every
    other payload is dispatched: its receipt is logged, the first
    registered handler is called with it, and so is every registered
    handler that no subscriber unsubscribes while the dispatch is running
    (the fuel covering the registered handlers).  Every payload whose
    [type] is one of the four inbound kinds is among those dispatched. *)
Theorem guard_is_truthiness subscriber fuel this data :
  (passesGuard data = false ->
     discardedSilently (trace (handleNativeMessage subscriber fuel this data)) /\
     bridge (handleNativeMessage subscriber fuel this data) = this /\
     finished (handleNativeMessage subscriber fuel this data) = true) /\
  (passesGuard data = true ->
     (exists log,
        effects (trace (handleNativeMessage subscriber fuel this data))
        = ConsoleLog "[MobileBridge] Received native message:" (payloadType data) :: log) /\
     (forall h rest,
        messageHandlers this = h :: rest -> (0 < fuel)%nat ->
        exists calls,
          handlerCalls (effects (trace (handleNativeMessage subscriber fuel this data)))
          = (h, data) :: calls) /\
     (forall h,
        (List.length (messageHandlers this) <= fuel)%nat ->
        In h (messageHandlers this) ->
        neverUnsubscribes subscriber data h ->
        In (h, data)
           (handlerCalls
              (effects (trace (handleNativeMessage subscriber fuel this data)))))) /\
  (isNativeMessageType (payloadType data) = true -> passesGuard data = true) /\
  passesGuard JsNull = false /\
  passesGuard (JsObj []) = false /\
  passesGuard (inbound "") = false.
Proof.
  split; [|split; [|split]].
  - intros P. now rewrite (live_dispatch_discards _ _ _ _ P).
  - intros P. rewrite (live_dispatch_walks _ _ _ _ P). cbv zeta.
    cbn [trace effects fst]. split; [now eexists|]. split.
    + intros h rest E Fuel. destruct fuel as [|fuel]; [lia|].
      rewrite E. rewrite (forEach_call _ _ _ _ _ _ h) by reflexivity. cbv zeta.
      cbn [walk_trace effects fst]. rewrite handlerCalls_log.
      rewrite handlerCalls_call. now eexists.
    + intros h F I U. destruct (registered_entry h _ I) as (p & Lt & E).
      rewrite handlerCalls_log.
      apply (forEach_reaches subscriber data h p U fuel 0 0 _ E). lia.
  - unfold passesGuard, payloadType, isNativeMessageType.
    destruct data as [| |b|n|s|f|fields]; cbn [getProp]; try discriminate.
    destruct (lookup "type" fields) as [| | | |t| |]; try discriminate.
    cbn [truthy andb]. destruct t; [discriminate|reflexivity].
  - repeat split.
Qed.

Lemma guard_is_truthiness_witness :
  discardedSilently
    (trace (handleNativeMessage (scripted [] []) 2 (bridge_with [1; 2]%nat) (JsObj []))) /\
  In (2%nat, inbound "TOKEN")
     (handlerCalls
        (effects (trace (handleNativeMessage (scripted [] []) 2 (bridge_with [1; 2]%nat)
                           (inbound "TOKEN"))))).
Proof.
  split.
  - apply (guard_is_truthiness (scripted [] []) 2%nat (bridge_with [1; 2]%nat) (JsObj [])).
    reflexivity.
  - destruct (guard_is_truthiness (scripted [] []) 2%nat (bridge_with [1; 2]%nat)
                (inbound "TOKEN")) as (_ & Dispatched & _).
    destruct (Dispatched eq_refl) as (_ & _ & Each).
    apply Each.
    + cbn. lia.
    + cbn. tauto.
    + intros n h' I. exact I.
Defined.

(** ** The error lines of a dispatch *)

(** X10.  Dispatch writes one error line per subscriber call that raised,
    in the order of the calls and carrying what was raised; calls that
    return leave no error line, and neither does a payload that is
    dropped. *)
Theorem dispatch_logs_each_raised_call subscriber fuel this data :
  consoleErrors (effects (trace (handleNativeMessage subscriber fuel this data)))
  = raisedDuring subscriber 0
      (handlerCalls (effects (trace (handleNativeMessage subscriber fuel this data)))).
Proof.
  destruct (passesGuard data) eqn:P.
  - rewrite (live_dispatch_walks _ _ _ _ P). cbv zeta. cbn [trace effects fst].
    unfold consoleErrors at 1, handlerCalls at 1. cbn [flat_map app].
    apply forEach_errors.
  - now rewrite (live_dispatch_discards _ _ _ _ P).
Qed.

End DispatchTheory.
